(** * MPFB log service: a shallow embedding of [mpfb/services/logservice.py]

    The module keeps one process-wide registry ([_LOGSERVICE]) of named log
    channels ([Logger] objects).  Python objects have identity and are
    mutated in place, so the embedding keeps the [Logger] objects in a heap
    (a list indexed by address) and lets the registry's dict map channel
    names to addresses.  The two dicts of the registry are finite maps.

    Modelling conventions:
    - severity levels and thresholds are Python ints, here [Z];
    - a Python str is the string of its UTF-8 bytes (the encoding the log
      files are written in), so [len] counts code points, not bytes;
    - the log directory holds text files, here a finite map from the path
      string to the file's content; whether the host opens the file of a
      new channel is a value of the host ([log_file_opens]): the functions
      named like the source give the state after a call that returned,
      the [call_] functions add when the call raises instead;
    - the configuration file holds the JSON object written by [json.dump],
      here the finite map itself ([None] when the file does not exist);
    - [print] appends one entry to [stdout].

    The methods that read the clock or the call stack ([enter], [time],
    [get_current_time], [reset_timer]) are not part of the embedding. *)

From Stdlib Require Import ZArith Ascii.
From stdpp Require Import base strings gmap list sorting pretty.

(** ** Python values, exceptions *)

(** The values a caller may pass where the source takes "any object":
    [None], an int, a str, or some other object known by its [str()]. *)
Inductive pyval :=
  | PyNone
  | PyInt (z : Z)
  | PyStr (s : string)
  | PyObj (str_ : string).

(** [str(v)] *)
Definition py_str (v : pyval) : string :=
  match v with
  | PyNone => "None"
  | PyInt z => pretty z
  | PyStr s => s
  | PyObj s => s
  end.

Inductive exn :=
  | RuntimeError (msg : string)
  | IndexError.

Inductive result (A : Type) :=
  | Ok (a : A)
  | Raise (e : exn).
Arguments Ok {A} a.
Arguments Raise {A} e.

(** [l[i]] on a Python list: negative indices count from the end. *)
Definition py_getitem {A} (l : list A) (i : Z) : option A :=
  if (0 <=? i)%Z then l !! Z.to_nat i
  else if (- Z.of_nat (length l) <=? i)%Z then l !! Z.to_nat (Z.of_nat (length l) + i)
  else None.

Definition nl : string := String "010"%char EmptyString.

(** [len(s)]: the code points of the str, that is the bytes of its UTF-8
    encoding that are no continuation bytes (10xxxxxx). *)
Definition is_continuation (c : ascii) : bool :=
  (128 <=? nat_of_ascii c) && (nat_of_ascii c <? 192).

Fixpoint py_len (s : string) : nat :=
  match s with
  | EmptyString => 0
  | String c s' => (if is_continuation c then 0 else 1) + py_len s'
  end.

(** [s.ljust(width, fill)] *)
Fixpoint fill_str (n : nat) (fill : ascii) : string :=
  match n with
  | O => EmptyString
  | S n' => String fill (fill_str n' fill)
  end.

Definition ljust (s : string) (width : nat) (fill : ascii) : string :=
  s +:+ fill_str (width - py_len s) fill.

(** [os.path.join(a, b)] (POSIX flavour). *)
Definition startswith_sep (s : string) : bool :=
  match s with
  | String c _ => Ascii.eqb c "/"
  | EmptyString => false
  end.

Fixpoint endswith_sep (s : string) : bool :=
  match s with
  | EmptyString => false
  | String c EmptyString => Ascii.eqb c "/"
  | String _ s' => endswith_sep s'
  end.

Definition join_prefix (a : string) : string :=
  match a with
  | EmptyString => a
  | _ => if endswith_sep a then a else a +:+ "/"
  end.

Definition os_path_join (a b : string) : string :=
  if startswith_sep b then b else join_prefix a +:+ b.

(** ** Severity levels ([class LogService]) *)

Definition LOGLEVELS : list string :=
  ["CRASH"; "ERROR"; "WARN "; "INFO "; "DEBUG"; "TRACE"; "DUMP "].
Definition CRASH : Z := 0.
Definition ERROR : Z := 1.
Definition WARN : Z := 2.
Definition INFO : Z := 3.
Definition DEBUG : Z := 4.
Definition TRACE : Z := 5.
Definition DUMP : Z := 6.

Definition _JUSTIFICATION : nat := 40.

(** ** Objects and process state *)

Record Logger := mkLogger {
  name : string;
  level : Z;
  level_is_overridden : bool;
  path : string;
  time_stamp : Z }.

(** Addresses of [Logger] objects. *)
Abbreviation loc := nat (only parsing).

Record State := mkState {
  heap : list Logger;                 (* the Logger objects, by address *)
  _loggers : gmap string loc;         (* _LOGSERVICE._loggers *)
  _default_log_level : Z;             (* _LOGSERVICE._default_log_level *)
  _level_overrides : gmap string Z;   (* _LOGSERVICE._level_overrides *)
  files : gmap string string;         (* text files, by path *)
  config : option (gmap string Z);    (* content of log_levels.json *)
  stdout : list string }.

Definition with_heap (h : list Logger) (st : State) : State :=
  mkState h (_loggers st) (_default_log_level st) (_level_overrides st)
          (files st) (config st) (stdout st).
Definition with_loggers (m : gmap string loc) (st : State) : State :=
  mkState (heap st) m (_default_log_level st) (_level_overrides st)
          (files st) (config st) (stdout st).
Definition with_default (d : Z) (st : State) : State :=
  mkState (heap st) (_loggers st) d (_level_overrides st)
          (files st) (config st) (stdout st).
Definition with_overrides (o : gmap string Z) (st : State) : State :=
  mkState (heap st) (_loggers st) (_default_log_level st) o
          (files st) (config st) (stdout st).
Definition with_files (fs : gmap string string) (st : State) : State :=
  mkState (heap st) (_loggers st) (_default_log_level st) (_level_overrides st)
          fs (config st) (stdout st).
Definition with_config (c : option (gmap string Z)) (st : State) : State :=
  mkState (heap st) (_loggers st) (_default_log_level st) (_level_overrides st)
          (files st) c (stdout st).
Definition print (line : string) (st : State) : State :=
  mkState (heap st) (_loggers st) (_default_log_level st) (_level_overrides st)
          (files st) (config st) (stdout st ++ [line]).

(** Content of a file; a file that does not exist yet reads as empty. *)
Definition file_content (fs : gmap string string) (p : string) : string :=
  default EmptyString (fs !! p).

(** [open(p, "w").write(data)] and [open(p, "a").write(data)] *)
Definition write_file (p data : string) (fs : gmap string string) : gmap string string :=
  <[p := data]> fs.
Definition append_file (p data : string) (fs : gmap string string) : gmap string string :=
  <[p := file_content fs p +:+ data]> fs.

(** The channel registered under a name, read through the heap. *)
Definition channel (st : State) (n : string) : option Logger :=
  _loggers st !! n ≫= λ l, heap st !! l.

(** ** Exceptions of the dict lookups, the caller's frame *)

(** [KeyError], and the exception [open] raises for a file it does not
    open (an [OSError] such as [FileNotFoundError]; [ValueError] for a
    name with a NUL), besides the exceptions of [exn]. *)
Inductive py_exn :=
  | Exn (e : exn)
  | KeyError (key : string)
  | OpenError (filename : string).

Inductive outcome (A : Type) :=
  | Returns (a : A)
  | Throws (e : py_exn).
Arguments Returns {A} a.
Arguments Throws {A} e.

Definition lift_result {A} (r : result A) : outcome A :=
  match r with
  | Ok a => Returns a
  | Raise e => Throws (Exn e)
  end.

(** What [enter] reads of its caller: [stack.f_lineno], [stack.f_globals]
    and the function name [inspect.stack()[1][3]]. *)
Record Frame := mkFrame {
  f_lineno : Z;
  f_globals : gmap string pyval;
  f_function : string }.

(** Enum entries numbered from [k] on, one per name. *)
Fixpoint numbered (k : Z) (ns : list string) : list (string * string * string * Z) :=
  match ns with
  | [] => []
  | n :: ns' => (n, n, n, k) :: numbered (k + 1) ns'
  end.

(** ** The host environment *)

(** Module-level values that come from the host: the two paths derived
    from the user's data directory, the start time, the library function
    [pprint.pformat(v, 4, 180, depth=5)], and whether [open(path, "w")]
    succeeds for a file of the given name in the log directory. *)
Class Host := {
  _LOGDIR : string;
  _CONFIG : string;
  _START : Z;
  pformat : pyval → string;
  log_file_opens : string → bool }.

Section LogServiceModule.

Context {host : Host}.

Definition _COMBINED : string := os_path_join _LOGDIR "combined.txt".

(** ** [class Logger] *)

Definition logger_path (nm : string) : string :=
  os_path_join _LOGDIR ("separated." +:+ nm +:+ ".txt").

(** [Logger(name, level)] when [open] succeeds: allocates the object and
    truncates its file ([call_Logger] adds the case that [open] raises). *)
Definition Logger__init__ (nm : string) (lvl : Z) (st : State) : loc * State :=
  let self := mkLogger nm lvl false (logger_path nm) _START in
  (length (heap st),
   with_files (write_file (path self) EmptyString (files st))
     (with_heap (heap st ++ [self]) st)).

Definition format_extra (extra_object : pyval) : string :=
  match extra_object with
  | PyNone => EmptyString
  | _ => " " +:+ py_str extra_object
  end.

Definition long_line (self : Logger) (label message : string) (extra_object : pyval) : string :=
  let location := ljust (name self +:+ " ") _JUSTIFICATION "." +:+ ": " in
  "[" +:+ label +:+ "] " +:+ location +:+ message +:+ format_extra extra_object.

Definition short_line (label message : string) (extra_object : pyval) : string :=
  "[" +:+ label +:+ "] " +:+ message +:+ format_extra extra_object.

Definition _log_message (self : Logger) (lvl : Z) (message : string)
    (extra_object : pyval) (st : State) : result State :=
  if (lvl <=? level self)%Z then
    match py_getitem LOGLEVELS lvl with
    | None => Raise IndexError
    | Some label =>
      let long_message := long_line self label message extra_object in
      let short_message := short_line label message extra_object in
      let st1 := print long_message st in
      let st2 := with_files (append_file (path self) (short_message +:+ nl) (files st1)) st1 in
      Ok (with_files (append_file _COMBINED (long_message +:+ nl) (files st2)) st2)
    end
  else Ok st.

Definition debug_enabled (self : Logger) : bool := (DEBUG <=? level self)%Z.

Definition set_level (lvl : Z) (self : Logger) : Logger :=
  mkLogger (name self) lvl true (path self) (time_stamp self).

Definition get_level (self : Logger) : Z := level self.

Definition crash (self : Logger) := _log_message self CRASH.
Definition error (self : Logger) := _log_message self ERROR.
Definition warn (self : Logger) := _log_message self WARN.
Definition info (self : Logger) := _log_message self INFO.
Definition debug (self : Logger) := _log_message self DEBUG.
Definition trace (self : Logger) := _log_message self TRACE.

(** The value [dump] builds from its argument. *)
Definition serialized_object (extra_object : pyval) : string :=
  match extra_object with
  | PyStr s => nl +:+ s
  | _ => nl +:+ pformat extra_object
  end.

Definition dump (self : Logger) (message : string) (extra_object : pyval)
    (st : State) : result State :=
  if (TRACE <? level self)%Z then
    _log_message self DUMP message (PyStr (serialized_object extra_object)) st
  else Ok st.

(** ** [class _LogService], the registry *)

Definition rewrite_json (st : State) : State :=
  let st1 := print ("Will rewrite log config " +:+ _CONFIG) st in
  with_config (Some (_level_overrides st1)) st1.

(** [_LogService()]: the config file is read if it exists and written as a
    template otherwise; the combined file is truncated. *)
Definition _LogService__init__ (st : State) : result State :=
  let st1 := with_loggers ∅ st in
  let st2 := with_default INFO st1 in
  let st3 := with_overrides (<["default" := _default_log_level st2]> ∅) st2 in
  let st4 :=
    match config st3 with
    | Some json =>
      let st' := with_overrides json st3 in
      match _level_overrides st' !! "default" with
      | Some d => with_default d st'
      | None => st'
      end
    | None =>
      rewrite_json (print "Log config does not exist. Creating empty template." st3)
    end in
  Ok (with_files (write_file _COMBINED EmptyString (files st4)) st4).

Definition get_default_log_level (st : State) : Z := _default_log_level st.

(** Runs the body of [for logger in self._loggers.values(): ...], the body
    being an in-place update of the object. *)
Definition for_each_logger (body : Logger → Logger) (st : State) : State :=
  with_heap (foldl (λ h l, alter body l h) (heap st) (map_to_list (_loggers st)).*2) st.

(** Loop body of [reset_log_levels]. *)
Definition reset_logger (logger : Logger) : Logger :=
  mkLogger (name logger) INFO false (path logger) (time_stamp logger).

Definition reset_log_levels (st : State) : State :=
  let st1 := with_default INFO st in
  let st2 := with_overrides (<["default" := _default_log_level st1]> ∅) st1 in
  let st3 := rewrite_json st2 in
  for_each_logger reset_logger st3.

Definition get_or_create_log_channel (nm : string) (st : State) : loc * State :=
  match _loggers st !! nm with
  | Some l => (l, st)
  | None =>
    let '(l, st1) := Logger__init__ nm (_default_log_level st) st in
    let st2 := with_loggers (<[nm := l]> (_loggers st1)) st1 in
    let st3 :=
      match _level_overrides st2 !! nm with
      | Some v => with_heap (alter (set_level v) l (heap st2)) st2
      | None => st2
      end in
    (l, st3)
  end.

(** Loop body of [set_default_log_level]. *)
Definition apply_default (lvl : Z) (logger : Logger) : Logger :=
  if level_is_overridden logger then logger
  else mkLogger (name logger) lvl (level_is_overridden logger)
         (path logger) (time_stamp logger).

Definition set_default_log_level (lvl : Z) (st : State) : State :=
  let st1 := with_default lvl st in
  let st2 := with_overrides (<["default" := lvl]> (_level_overrides st1)) st1 in
  let st3 := for_each_logger (apply_default lvl) st2 in
  rewrite_json st3.

Definition set_level_override (logger_name : string) (lvl : Z) (st : State) : State :=
  let '(logger, st1) := get_or_create_log_channel logger_name st in
  let st2 := with_overrides (<[logger_name := lvl]> (_level_overrides st1)) st1 in
  let st3 := with_heap (alter (set_level lvl) logger (heap st2)) st2 in
  rewrite_json st3.

(** Entries of a UI enum: identifier, label, description, number. *)
Definition enum_item : Type := string * string * string * Z.

(** [logger_names = list(self._loggers.keys()); logger_names.sort()] *)
Definition sorted_logger_names (st : State) : list string :=
  merge_sort String.le (map_to_list (_loggers st)).*1.

Definition loggers_list_step (log_filter : string)
    (acc : list enum_item * Z) (nm : string) : list enum_item * Z :=
  let '(loggers, current) := acc in
  if bool_decide (log_filter = EmptyString) || String.prefix log_filter nm
  then (loggers ++ [(nm, nm, nm, current)], (current + 1)%Z)
  else acc.

Definition get_loggers_list_as_property_enum (log_filter : string) (st : State)
    : list enum_item :=
  let log_filter := if bool_decide (log_filter = "ALL") then EmptyString else log_filter in
  (foldl (loggers_list_step log_filter)
     ([("default", "default", "the default log level", 0%Z)], 1%Z)
     (sorted_logger_names st)).1.

(** [name.split(".", 1)] when ["." in name], [None] otherwise. *)
Fixpoint split_dot (s : string) : option (string * string) :=
  match s with
  | EmptyString => None
  | String c s' =>
    if Ascii.eqb c "." then Some (EmptyString, s')
    else match split_dot s' with
         | Some (cat, suffix) => Some (String c cat, suffix)
         | None => None
         end
  end.

Definition category_of (nm : string) : string :=
  match split_dot nm with
  | None => nm
  | Some (cat, suffix) => cat
  end.

Definition categories_step (acc : list string * list enum_item * Z) (nm : string)
    : list string * list enum_item * Z :=
  let '(category_names, categories, current) := acc in
  let cat := category_of nm in
  if bool_decide (cat ∈ category_names) then acc
  else (category_names ++ [cat], categories ++ [(cat, cat, cat, current)], (current + 1)%Z).

Definition get_loggers_categories_as_property_enum (st : State) : list enum_item :=
  (foldl categories_step
     ([], [("ALL", "(no filter)", "Do not filter: show all loggers", 0%Z)], 1%Z)
     (sorted_logger_names st)).1.2.

Definition get_loggers (st : State) : gmap string loc := _loggers st.

(** ** [class LogService], the static facade *)

Definition LogService__init__ (st : State) : result State :=
  Raise (RuntimeError "You should not instance LogService. Use its static methods instead.").

Definition get_logger (nm : pyval) (st : State) : loc * State :=
  get_or_create_log_channel (py_str nm) st.

(** ** Process start *)

(** A process that has not imported the module yet: nothing on the heap,
    nothing printed, the files as they were left on disk. *)
Definition process_start (fs : gmap string string) (cfg : option (gmap string Z)) : State :=
  mkState [] ∅ 0%Z ∅ fs cfg [].

(** [_LOGSERVICE = _LogService()] at import. *)
Definition _LOGSERVICE (fs : gmap string string) (cfg : option (gmap string Z)) : result State :=
  _LogService__init__ (process_start fs cfg).

(** The registry operations, as data. *)
Inductive op :=
  | GetOrCreate (nm : string)
  | SetDefault (lvl : Z)
  | SetOverride (nm : string) (lvl : Z)
  | ResetAll.

Definition run_op (o : op) (st : State) : State :=
  match o with
  | GetOrCreate nm => (get_or_create_log_channel nm st).2
  | SetDefault lvl => set_default_log_level lvl st
  | SetOverride nm lvl => set_level_override nm lvl st
  | ResetAll => reset_log_levels st
  end.

Definition run_ops (ops : list op) (st : State) : State :=
  foldl (λ s o, run_op o s) st ops.

(** ** Specification vocabulary *)

(** What every [Logger] object satisfies: [name] and [path] are set once,
    by the constructor. *)
Definition Logger_wf (self : Logger) : Prop :=
  path self = logger_path (name self).

(** A message was recorded between [st] and [st']: the short line went to
    the channel's own file, the long line to the combined file and to the
    standard output, and nothing else changed. *)
Definition recorded (self : Logger) (lvl : Z) (message : string)
    (extra_object : pyval) (st st' : State) : Prop :=
  ∃ label,
    LOGLEVELS !! Z.to_nat lvl = Some label ∧
    files st' !! path self =
      Some (file_content (files st) (path self)
            +:+ short_line label message extra_object +:+ nl) ∧
    files st' !! _COMBINED =
      Some (file_content (files st) _COMBINED
            +:+ long_line self label message extra_object +:+ nl) ∧
    (∀ p, p ≠ path self → p ≠ _COMBINED → files st' !! p = files st !! p) ∧
    stdout st' = stdout st ++ [long_line self label message extra_object] ∧
    heap st' = heap st ∧ _loggers st' = _loggers st ∧
    _default_log_level st' = _default_log_level st ∧
    _level_overrides st' = _level_overrides st ∧ config st' = config st.

(** Every registered name points to a live [Logger] object that carries
    this very name and the path derived from it. *)
Definition registry_wf (st : State) : Prop :=
  ∀ n l, _loggers st !! n = Some l →
    ∃ lg, heap st !! l = Some lg ∧ name lg = n ∧ Logger_wf lg.

(** Updates of a [Logger] that leave its name and path alone. *)
Definition keeps_identity (f : Logger → Logger) : Prop :=
  ∀ lg, name (f lg) = name lg ∧ path (f lg) = path lg.

(** The object [get_or_create_log_channel] builds for an unknown name. *)
Definition fresh_logger (st : State) (n : string) : Logger :=
  match _level_overrides st !! n with
  | Some v => mkLogger n v true (logger_path n) _START
  | None => mkLogger n (_default_log_level st) false (logger_path n) _START
  end.

(** Every name in the overrides table, the reserved key ["default"] apart,
    is the name of a channel that is flagged as overridden as soon as it
    exists. *)
Definition overrides_flagged (st : State) : Prop :=
  ∀ n lg, n ≠ "default" → is_Some (_level_overrides st !! n) →
    channel st n = Some lg → level_is_overridden lg = true.

(** The names a sequence of operations passes to [set_level_override]. *)
Definition overridden_names (ops : list op) : list string :=
  omap (λ o, match o with SetOverride n _ => Some n | _ => None end) ops.

(** Round trip of a sequence of operations: the registry is started on the
    disk [(fs, cfg)] and runs [ops]; a second registry is then started on
    the disk the first one leaves behind and asked for every name that
    was overridden.  The second registry has the default threshold of the
    first one, and each of these channels has the threshold it had in the
    first one. *)
Definition round_trip (fs : gmap string string) (cfg : option (gmap string Z))
    (ops : list op) : Prop :=
  ∃ st0, _LOGSERVICE fs cfg = Ok st0 ∧
    let st := run_ops ops st0 in
    ∃ st', _LOGSERVICE (files st) (config st) = Ok st' ∧
      _default_log_level st' = _default_log_level st ∧
      ∀ n, n ∈ overridden_names ops →
        ∃ lg lg', channel st n = Some lg ∧
          channel (run_ops (GetOrCreate <$> overridden_names ops) st') n = Some lg' ∧
          level lg' = level lg.

(** ["default"] is the key under which the overrides table keeps the
    default threshold. *)
Definition no_default_override (o : op) : Prop :=
  match o with
  | SetOverride n _ => n ≠ "default"
  | _ => True
  end.

(** The threshold the settings prescribe for a channel name. *)
Definition expected_level (st : State) (n : string) : Z :=
  default (_default_log_level st) (_level_overrides st !! n).

(** The registry agrees with the configuration file, and the channels
    agree with the registry. *)
Definition consistent (st : State) : Prop :=
  registry_wf st ∧
  config st = Some (_level_overrides st) ∧
  _default_log_level st = default INFO (_level_overrides st !! "default") ∧
  ∀ n lg, n ≠ "default" → channel st n = Some lg →
    level lg = expected_level st n ∧
    (level_is_overridden lg = true ↔ is_Some (_level_overrides st !! n)).

(** The categories in the order the loop finds them: each one at its first
    occurrence. *)
Definition first_occurrences (l : list string) : list string :=
  foldl (λ seen x, if bool_decide (x ∈ seen) then seen else seen ++ [x]) [] l.

Definition enum_ids (items : list enum_item) : list string := items.*1.*1.*1.

(** What happens when the module is imported and the registry class is
    then instantiated once more. *)
Definition construct_twice (fs : gmap string string)
    (cfg : option (gmap string Z)) : result State :=
  match _LOGSERVICE fs cfg with
  | Ok st0 => _LogService__init__ st0
  | Raise e => Raise e
  end.

(** ** [class Logger]: the call stack and the clock *)

(** ["Now entering {}.{}():{}".format(caller_name, caller_method, line_number)] *)
Definition enter_message (caller_name : pyval) (caller_method line_number : string) : string :=
  "Now entering " +:+ py_str caller_name +:+ "." +:+ caller_method
  +:+ "():" +:+ line_number.

Definition enter (self : Logger) (stack : Frame) (st : State) : outcome State :=
  if (TRACE <=? level self)%Z then
    let line_number := py_str (PyInt (f_lineno stack)) in
    match f_globals stack !! "__name__" with
    | None => Throws (KeyError "__name__")
    | Some caller_name =>
      match f_globals stack !! "__file__" with
      | None => Throws (KeyError "__file__")
      | Some file_name =>
        let caller_method := f_function stack in
        let message := enter_message caller_name caller_method line_number in
        lift_result (_log_message self TRACE message PyNone st)
      end
    end
  else Returns st.

(** The clock reading [int(time.time() * 1000.0)] is the argument [now]. *)
Definition get_current_time (self : Logger) (now : Z) : Z :=
  (now - time_stamp self)%Z.

Definition time (self : Logger) (now : Z) (message : string) (st : State) : result State :=
  let current := now in
  _log_message self DEBUG message (PyInt (current - time_stamp self)) st.

Definition reset_timer (now : Z) (self : Logger) : Logger :=
  mkLogger (name self) (level self) (level_is_overridden self) (path self) now.

(** ** [log_crash] of the package's [__init__]

    [_LOG] is the channel the package logs to, [_OLD_EXCEPTHOOK] the hook
    that was installed before (called with the arguments [log_crash] got),
    [tb_lines] the lines of [traceback.extract_tb(tb).format()]. *)
Definition log_crash (_LOG : Logger) (_OLD_EXCEPTHOOK : option (State → result State))
    (tb_lines : list string) (value : pyval) (st : State) : result State :=
  let stacktrace := foldl (λ stacktrace line, stacktrace +:+ line) nl tb_lines in
  match error _LOG "Unhandled crash"
          (PyStr (stacktrace +:+ nl +:+ py_str value +:+ nl)) st with
  | Raise e => Raise e
  | Ok st1 =>
    match _OLD_EXCEPTHOOK with
    | Some hook => hook st1
    | None => Ok st1
    end
  end.

(** ** More specification vocabulary *)

(** [name.startswith(log_filter)] or no filter at all. *)
Definition passes_filter (log_filter nm : string) : bool :=
  bool_decide (log_filter = EmptyString) || String.prefix log_filter nm.

(** The filter [get_loggers_list_as_property_enum] applies: ["ALL"] stands
    for no filter. *)
Definition effective_filter (log_filter : string) : string :=
  if bool_decide (log_filter = "ALL") then EmptyString else log_filter.

(** The numbers of the entries of an enum. *)
Definition enum_numbers (items : list enum_item) : list Z := items.*2.

(** The categories a run of the loop adds to the ones it has [seen]. *)
Fixpoint new_categories (seen cs : list string) : list string :=
  match cs with
  | [] => []
  | c :: cs' =>
    if bool_decide (c ∈ seen) then new_categories seen cs'
    else c :: new_categories (seen ++ [c]) cs'
  end.

(** The characters of a string. *)
Fixpoint chars (s : string) : list ascii :=
  match s with
  | EmptyString => []
  | String c s' => c :: chars s'
  end.

(** [logger.reset_timer()] through a reference. *)
Definition reset_timer_at (l : loc) (now : Z) (st : State) : State :=
  with_heap (alter (reset_timer now) l (heap st)) st.

(** ** Calls that may raise: opening the file of a new channel

    [Logger.__init__] opens the channel's file for writing.  When the host
    does not open it, [open] raises (a [FileNotFoundError] for a name with
    a path separator), the constructor raises with it and so do its
    callers; nothing has changed then: no file, no entry in the dict, no
    override. *)

(** The name of a channel's file in the log directory. *)
Definition logger_file (nm : string) : string := "separated." +:+ nm +:+ ".txt".

Definition call_Logger (nm : string) (lvl : Z) (st : State) : outcome (loc * State) :=
  if log_file_opens (logger_file nm) then Returns (Logger__init__ nm lvl st)
  else Throws (OpenError (logger_path nm)).

Definition call_get_or_create_log_channel (nm : string) (st : State)
    : outcome (loc * State) :=
  match _loggers st !! nm with
  | Some l => Returns (l, st)
  | None =>
    match call_Logger nm (_default_log_level st) st with
    | Throws e => Throws e
    | Returns (l, st1) =>
      let st2 := with_loggers (<[nm := l]> (_loggers st1)) st1 in
      let st3 :=
        match _level_overrides st2 !! nm with
        | Some v => with_heap (alter (set_level v) l (heap st2)) st2
        | None => st2
        end in
      Returns (l, st3)
    end
  end.

Definition call_set_level_override (logger_name : string) (lvl : Z) (st : State)
    : outcome State :=
  match call_get_or_create_log_channel logger_name st with
  | Throws e => Throws e
  | Returns (logger, st1) =>
    let st2 := with_overrides (<[logger_name := lvl]> (_level_overrides st1)) st1 in
    let st3 := with_heap (alter (set_level lvl) logger (heap st2)) st2 in
    Returns (rewrite_json st3)
  end.

Definition call_get_logger (nm : pyval) (st : State) : outcome (loc * State) :=
  call_get_or_create_log_channel (py_str nm) st.

Definition call_op (o : op) (st : State) : outcome State :=
  match o with
  | GetOrCreate nm =>
    match call_get_or_create_log_channel nm st with
    | Throws e => Throws e
    | Returns (_, st') => Returns st'
    end
  | SetDefault lvl => Returns (set_default_log_level lvl st)
  | SetOverride nm lvl => call_set_level_override nm lvl st
  | ResetAll => Returns (reset_log_levels st)
  end.

(** The state a call leaves behind, whether it returned or raised. *)
Definition after_op (o : op) (st : State) : State :=
  match call_op o st with
  | Returns st' => st'
  | Throws _ => st
  end.

Definition after_ops (ops : list op) (st : State) : State :=
  foldl (λ s o, after_op o s) st ops.

(** [logger.set_level(lvl)] through a reference. *)
Definition set_level_at (l : loc) (lvl : Z) (st : State) : State :=
  with_heap (alter (set_level lvl) l (heap st)) st.

(** Asking twice for a name returns an instance, and the same one. *)
Definition identity_stable (n : string) (st : State) : Prop :=
  ∃ l st1, call_get_or_create_log_channel n st = Returns (l, st1) ∧
           call_get_or_create_log_channel n st1 = Returns (l, st1).

End LogServiceModule.

(** ** A concrete host, for worked instances *)

(** The file names a POSIX file system accepts in a directory without
    subdirectories: no separator, no NUL, at most 255 bytes. *)
Definition posix_file_name (f : string) : bool :=
  bool_decide ("/"%char ∉ chars f) && bool_decide ("000"%char ∉ chars f)
  && (String.length f <=? 255).

Definition unix_host : Host := {|
  _LOGDIR := "/home/user/mpfb/logs";
  _CONFIG := "/home/user/mpfb/config/log_levels.json";
  _START := 1700000000000;
  pformat := py_str;
  log_file_opens := posix_file_name |}.

(** The registry right after import, on a disk without configuration. *)
Definition host_boot : State :=
  match _LOGSERVICE (host := unix_host) ∅ None with
  | Ok st => st
  | Raise _ => process_start ∅ None
  end.

Definition host_run (ops : list op) : State :=
  run_ops (host := unix_host) ops host_boot.

(** A registry with an overridden channel and a plain one. *)
Definition host_state : State :=
  host_run [SetOverride "net" 5; GetOrCreate "ui"].

Definition net_logger : Logger :=
  mkLogger "net" 5 true (logger_path (host := unix_host) "net") (@_START unix_host).

Definition ui_logger : Logger :=
  mkLogger "ui" 3 false (logger_path (host := unix_host) "ui") (@_START unix_host).

(** A channel above every level, and one below every level. *)
Definition loud_logger : Logger :=
  mkLogger "loud" 9 true (logger_path (host := unix_host) "loud") (@_START unix_host).

Definition silent_logger : Logger :=
  mkLogger "silent" (-1) true (logger_path (host := unix_host) "silent") (@_START unix_host).

(** The frame of a function [draw] of the module [mpfb.ui], at line 12. *)
Definition ui_frame : Frame :=
  mkFrame 12 (<["__name__" := PyStr "mpfb.ui"]> (<["__file__" := PyStr "/addons/mpfb/ui.py"]> ∅))
          "draw".

(** A registry with a channel named like the entry of the default. *)
Definition host_state_default : State :=
  host_run [GetOrCreate "default"; GetOrCreate "ui"].

Section LogServiceProperties.

Context {host : Host}.

(** ** Strings and paths *)

Lemma string_app_length (s t : string) :
  String.length (s +:+ t) = String.length s + String.length t.
Proof.
  induction s as [|c s IH]; [done|].
  change (S (String.length (s +:+ t)) = S (String.length s) + String.length t).
  by rewrite IH.
Qed.

Lemma string_app_inj_r (t s1 s2 : string) : s1 +:+ t = s2 +:+ t → s1 = s2.
Proof.
  revert s2. induction s1 as [|c s1 IH]; intros [|d s2] Heq.
  - done.
  - apply (f_equal String.length) in Heq.
    rewrite !string_app_length in Heq. simpl in Heq. lia.
  - apply (f_equal String.length) in Heq.
    rewrite !string_app_length in Heq. simpl in Heq. lia.
  - change (String c (s1 +:+ t) = String d (s2 +:+ t)) in Heq.
    injection Heq as -> Heq. f_equal. by apply IH.
Qed.

Lemma os_path_join_relative (a b : string) :
  startswith_sep b = false → os_path_join a b = join_prefix a +:+ b.
Proof. unfold os_path_join. by intros ->. Qed.

Lemma logger_path_unfold (nm : string) :
  logger_path nm = join_prefix _LOGDIR +:+ "separated." +:+ nm +:+ ".txt".
Proof. unfold logger_path. by rewrite os_path_join_relative. Qed.

Lemma logger_path_inj (n1 n2 : string) : logger_path n1 = logger_path n2 → n1 = n2.
Proof.
  rewrite !logger_path_unfold. intros Heq.
  apply (inj (String.app _)) in Heq. apply (inj (String.app _)) in Heq.
  by apply string_app_inj_r in Heq.
Qed.

Lemma logger_path_ne_COMBINED (nm : string) : logger_path nm ≠ _COMBINED.
Proof.
  rewrite logger_path_unfold. unfold _COMBINED.
  rewrite os_path_join_relative by done.
  intros Heq. apply (inj (String.app _)) in Heq. discriminate Heq.
Qed.

(** ** Accepting and rejecting messages *)

Lemma LOGLEVELS_label (s : Z) :
  (0 ≤ s ≤ 6)%Z →
  ∃ label, py_getitem LOGLEVELS s = Some label ∧ LOGLEVELS !! Z.to_nat s = Some label.
Proof.
  intros Hs.
  assert (s = 0 ∨ s = 1 ∨ s = 2 ∨ s = 3 ∨ s = 4 ∨ s = 5 ∨ s = 6)%Z
    as Hcases by lia.
  repeat (destruct Hcases as [-> | Hcases]); try subst s; eexists; split; reflexivity.
Qed.

Lemma print_grows (line : string) (st : State) : stdout st ++ [line] ≠ stdout st.
Proof.
  intros Heq. apply (f_equal length) in Heq. rewrite length_app in Heq.
  simpl in Heq. lia.
Qed.

Lemma log_message_accepted (self : Logger) (s : Z) (message : string)
    (extra_object : pyval) (st : State) :
  Logger_wf self → (0 ≤ s ≤ 6)%Z → (s ≤ level self)%Z →
  ∃ st', _log_message self s message extra_object st = Ok st' ∧
         recorded self s message extra_object st st'.
Proof.
  intros Hwf Hs Hle. destruct (LOGLEVELS_label s Hs) as (label & Hget & Hlab).
  unfold _log_message. rewrite (proj2 (Z.leb_le s (level self))) by done. rewrite Hget.
  eexists. split; [done|]. exists label.
  assert (path self ≠ _COMBINED) as Hne.
  { rewrite Hwf. apply logger_path_ne_COMBINED. }
  simpl. unfold append_file, file_content.
  repeat split; try done.
  - rewrite lookup_insert_ne by done. by rewrite lookup_insert_eq.
  - rewrite lookup_insert_eq. by rewrite lookup_insert_ne.
  - intros p Hp1 Hp2. by rewrite !lookup_insert_ne.
Qed.

Lemma log_message_rejected (self : Logger) (s : Z) (message : string)
    (extra_object : pyval) (st : State) :
  (level self < s)%Z → _log_message self s message extra_object st = Ok st.
Proof.
  intros Hlt. unfold _log_message.
  by rewrite (proj2 (Z.leb_gt s (level self))).
Qed.

(** C1: for a severity [s] in 0..6, a message emitted on a channel with
    threshold [level self] is recorded (short line appended to the
    channel's file, long line appended to the combined file and printed)
    if and only if [s <= level self]; when [s] is above the threshold the
    call changes nothing at all. *)
Theorem log_message_recorded_iff (self : Logger) (s : Z) (message : string)
    (extra_object : pyval) (st : State) :
  Logger_wf self → (0 ≤ s ≤ 6)%Z →
  ∃ st', _log_message self s message extra_object st = Ok st' ∧
         (recorded self s message extra_object st st' ↔ (s ≤ level self)%Z) ∧
         ((level self < s)%Z → st' = st).
Proof.
  intros Hwf Hs. destruct (Z.le_gt_cases s (level self)) as [Hle | Hgt].
  - destruct (log_message_accepted self s message extra_object st) as (st' & Hrun & Hrec);
      [done..|].
    exists st'. split; [done|]. split; [done|]. lia.
  - exists st. split; [by apply log_message_rejected|]. split; [|done].
    split; [|lia].
    intros (label & _ & _ & _ & _ & Hout & _). symmetry in Hout. by apply print_grows in Hout.
Qed.

(** C6: [dump] emits a DUMP record if and only if the threshold is strictly
    above TRACE; the emitted extra text is a newline followed by the
    string itself or, for any other value, by its pretty-printed form;
    with a threshold of TRACE or below the call changes nothing. *)
Theorem dump_emits_iff (self : Logger) (message : string)
    (extra_object : pyval) (st : State) :
  Logger_wf self →
  ∃ st', dump self message extra_object st = Ok st' ∧
         (recorded self DUMP message (PyStr (serialized_object extra_object)) st st'
          ↔ (TRACE < level self)%Z) ∧
         ((level self ≤ TRACE)%Z → st' = st) ∧
         ((∀ s, extra_object ≠ PyStr s) →
          serialized_object extra_object = nl +:+ pformat extra_object).
Proof.
  intros Hwf.
  assert ((∀ s, extra_object ≠ PyStr s) →
          serialized_object extra_object = nl +:+ pformat extra_object) as Hser.
  { intros Hns. destruct extra_object; try done. by destruct (Hns s). }
  unfold dump. destruct (Z.ltb_spec TRACE (level self)) as [Hlt | Hge].
  - destruct (log_message_accepted self DUMP message
                (PyStr (serialized_object extra_object)) st) as (st' & Hrun & Hrec);
      [done | done | unfold DUMP, TRACE in *; lia |].
    exists st'. split; [done|]. split; [done|]. split; [lia | done].
  - exists st. split; [done|]. split; [|done].
    split; [|lia].
    intros (label & _ & _ & _ & _ & Hout & _). symmetry in Hout. by apply print_grows in Hout.
Qed.

(** ** The registry: well-formedness and the loop over all channels *)

Lemma set_level_keeps_identity (lvl : Z) : keeps_identity (set_level lvl).
Proof. by intros lg. Qed.

Lemma foldl_alter_lookup (f : Logger → Logger) (ls : list loc)
    (h : list Logger) (l : loc) :
  (∀ lg, f (f lg) = f lg) →
  foldl (λ h l, alter f l h) h ls !! l =
    if decide (l ∈ ls) then f <$> h !! l else h !! l.
Proof.
  intros Hidem. revert h. induction ls as [|a ls IH]; intros h.
  { rewrite decide_False by apply not_elem_of_nil. done. }
  change (foldl (λ h l, alter f l h) (alter f a h) ls !! l =
          if decide (l ∈ a :: ls) then f <$> h !! l else h !! l).
  rewrite IH. destruct (decide (a = l)) as [-> | Hne].
  - rewrite list_lookup_alter_eq.
    rewrite (decide_True (P := l ∈ l :: ls)) by apply list_elem_of_here.
    case_decide; [|done].
    destruct (h !! l) as [lg|]; simpl; [|done]. by rewrite Hidem.
  - rewrite list_lookup_alter_ne by done.
    destruct (decide (l ∈ ls)) as [Hin | Hin].
    + rewrite decide_True; [done|]. by apply list_elem_of_further.
    + rewrite decide_False; [done|].
      intros [?|?]%elem_of_cons; congruence.
Qed.

Lemma elem_of_logger_values (m : gmap string loc) (l : loc) :
  l ∈ (map_to_list m).*2 ↔ ∃ n, m !! n = Some l.
Proof.
  rewrite list_elem_of_fmap. split.
  - intros ([n l'] & -> & Hin). exists n. by apply elem_of_map_to_list.
  - intros (n & Hn). exists (n, l). split; [done|]. by apply elem_of_map_to_list.
Qed.

Lemma channel_lookup (st : State) (n : string) (l : loc) :
  _loggers st !! n = Some l → channel st n = heap st !! l.
Proof. unfold channel. by intros ->. Qed.

Lemma channel_None (st : State) (n : string) :
  _loggers st !! n = None → channel st n = None.
Proof. unfold channel. by intros ->. Qed.

Lemma registry_wf_channel (st : State) (n : string) (l : loc) :
  registry_wf st → _loggers st !! n = Some l →
  ∃ lg, channel st n = Some lg ∧ heap st !! l = Some lg ∧ name lg = n ∧ Logger_wf lg.
Proof.
  intros Hwf Hn. destruct (Hwf n l Hn) as (lg & Hl & Hname & Hpath).
  exists lg. by rewrite (channel_lookup st n l).
Qed.

(** Two names never share an object. *)
Lemma registry_wf_inj (st : State) (n1 n2 : string) (l : loc) :
  registry_wf st → _loggers st !! n1 = Some l → _loggers st !! n2 = Some l → n1 = n2.
Proof.
  intros Hwf H1 H2.
  destruct (Hwf n1 l H1) as (lg1 & Hl1 & Hname1 & _).
  destruct (Hwf n2 l H2) as (lg2 & Hl2 & Hname2 & _).
  congruence.
Qed.

(** The loop [for logger in self._loggers.values()] updates every
    registered channel and nothing else. *)
Lemma channel_for_each_logger (f : Logger → Logger) (st : State) (n : string) :
  (∀ lg, f (f lg) = f lg) →
  channel (for_each_logger f st) n = f <$> channel st n.
Proof.
  intros Hidem. unfold channel, for_each_logger. simpl.
  destruct (_loggers st !! n) as [l|] eqn:Hn; simpl; [|done].
  rewrite foldl_alter_lookup by done.
  rewrite decide_True; [done|]. apply elem_of_logger_values. by exists n.
Qed.

Lemma registry_wf_for_each_logger (f : Logger → Logger) (st : State) :
  (∀ lg, f (f lg) = f lg) → keeps_identity f →
  registry_wf st → registry_wf (for_each_logger f st).
Proof.
  intros Hidem Hkeep Hwf n l Hn. simpl in Hn.
  destruct (Hwf n l Hn) as (lg & Hl & Hname & Hpath).
  exists (f lg). unfold for_each_logger. simpl.
  rewrite foldl_alter_lookup by done.
  rewrite decide_True by (apply elem_of_logger_values; by exists n).
  rewrite Hl. destruct (Hkeep lg) as [Hk1 Hk2].
  unfold Logger_wf. rewrite Hk1, Hk2. done.
Qed.

(** An in-place update of one registered channel. *)
Lemma channel_alter (f : Logger → Logger) (st : State) (n m : string) (l : loc) :
  registry_wf st → _loggers st !! n = Some l →
  channel (with_heap (alter f l (heap st)) st) m =
    if decide (m = n) then f <$> channel st n else channel st m.
Proof.
  intros Hwf Hn. unfold channel at 1. simpl. case_decide as Hm.
  - subst m. rewrite Hn. simpl. rewrite list_lookup_alter_eq.
    by rewrite (channel_lookup st n l).
  - destruct (_loggers st !! m) as [l'|] eqn:Hm'; simpl.
    + rewrite list_lookup_alter_ne.
      * by rewrite (channel_lookup st m l').
      * intros ->. apply Hm. by apply (registry_wf_inj st m n l').
    + by rewrite channel_None.
Qed.

Lemma registry_wf_alter (f : Logger → Logger) (st : State) (l : loc) :
  keeps_identity f → registry_wf st →
  registry_wf (with_heap (alter f l (heap st)) st).
Proof.
  intros Hkeep Hwf n l' Hn. simpl in *.
  destruct (Hwf n l' Hn) as (lg & Hl & Hname & Hpath).
  destruct (decide (l = l')) as [-> | Hne].
  - exists (f lg). rewrite list_lookup_alter_eq, Hl.
    destruct (Hkeep lg) as [Hk1 Hk2]. unfold Logger_wf. by rewrite Hk1, Hk2.
  - exists lg. by rewrite list_lookup_alter_ne.
Qed.

(** ** What each registry operation does to the channels *)

Lemma channel_ext (st st' : State) (n : string) :
  heap st' = heap st → _loggers st' = _loggers st → channel st' n = channel st n.
Proof. unfold channel. by intros -> ->. Qed.

Lemma registry_wf_ext (st st' : State) :
  heap st' = heap st → _loggers st' = _loggers st →
  registry_wf st → registry_wf st'.
Proof. unfold registry_wf. by intros -> ->. Qed.

Lemma alter_snoc (f : Logger → Logger) (h : list Logger) (x : Logger) :
  alter f (length h) (h ++ [x]) = h ++ [f x].
Proof.
  replace (length h) with (length h + 0) at 1 by lia.
  by rewrite alter_app_r.
Qed.

Lemma get_or_create_existing (st : State) (n : string) (l : loc) :
  _loggers st !! n = Some l → get_or_create_log_channel n st = (l, st).
Proof. unfold get_or_create_log_channel. by intros ->. Qed.

Lemma get_or_create_new (st : State) (n : string) :
  _loggers st !! n = None →
  get_or_create_log_channel n st =
    (length (heap st),
     mkState (heap st ++ [fresh_logger st n])
             (<[n := length (heap st)]> (_loggers st))
             (_default_log_level st) (_level_overrides st)
             (<[logger_path n := EmptyString]> (files st))
             (config st) (stdout st)).
Proof.
  intros Hn. unfold get_or_create_log_channel, fresh_logger. rewrite Hn. simpl.
  destruct (_level_overrides st !! n) as [v|]; [|done].
  unfold with_heap. simpl. by rewrite alter_snoc.
Qed.

Lemma get_or_create_registered (st : State) (n : string) :
  _loggers (get_or_create_log_channel n st).2 !! n =
    Some (get_or_create_log_channel n st).1.
Proof.
  destruct (_loggers st !! n) as [l|] eqn:Hn.
  - by rewrite (get_or_create_existing st n l).
  - rewrite get_or_create_new by done. simpl. by rewrite lookup_insert_eq.
Qed.

Lemma get_or_create_settings (st : State) (n : string) :
  let st' := (get_or_create_log_channel n st).2 in
  _default_log_level st' = _default_log_level st ∧
  _level_overrides st' = _level_overrides st ∧
  config st' = config st.
Proof.
  destruct (_loggers st !! n) as [l|] eqn:Hn.
  - by rewrite (get_or_create_existing st n l).
  - by rewrite get_or_create_new.
Qed.

(** A registered name keeps its object whatever is created next. *)
Lemma get_or_create_keeps (st : State) (n m : string) (l : loc) :
  _loggers st !! m = Some l →
  _loggers (get_or_create_log_channel n st).2 !! m = Some l.
Proof.
  intros Hm. destruct (_loggers st !! n) as [l'|] eqn:Hn.
  - by rewrite (get_or_create_existing st n l').
  - rewrite get_or_create_new by done. simpl.
    rewrite lookup_insert_ne; [done|]. congruence.
Qed.

Lemma registry_wf_get_or_create (st : State) (n : string) :
  registry_wf st → registry_wf (get_or_create_log_channel n st).2.
Proof.
  intros Hwf. destruct (_loggers st !! n) as [l|] eqn:Hn.
  { by rewrite (get_or_create_existing st n l). }
  rewrite get_or_create_new by done. intros m l Hm. simpl in *.
  destruct (decide (n = m)) as [-> | Hne].
  - rewrite lookup_insert_eq in Hm. injection Hm as <-.
    exists (fresh_logger st m). rewrite list_lookup_middle by done.
    unfold fresh_logger, Logger_wf. by destruct (_level_overrides st !! m).
  - rewrite lookup_insert_ne in Hm by done.
    destruct (Hwf m l Hm) as (lg & Hl & Hname & Hpath).
    exists lg. rewrite lookup_app_l; [done|]. by eapply lookup_lt_Some.
Qed.

Lemma channel_get_or_create (st : State) (n m : string) :
  registry_wf st →
  channel (get_or_create_log_channel n st).2 m =
    if decide (m = n) then Some (default (fresh_logger st n) (channel st n))
    else channel st m.
Proof.
  intros Hwf. destruct (_loggers st !! n) as [l|] eqn:Hn.
  - rewrite (get_or_create_existing st n l) by done. simpl.
    case_decide as Hm; [|done]. subst m.
    destruct (registry_wf_channel st n l Hwf Hn) as (lg & -> & _). done.
  - rewrite get_or_create_new by done. unfold channel at 1. simpl.
    case_decide as Hm.
    + subst m. rewrite lookup_insert_eq. simpl.
      rewrite list_lookup_middle by done. by rewrite (channel_None st n).
    + rewrite lookup_insert_ne by done.
      destruct (_loggers st !! m) as [l|] eqn:Hm'; simpl.
      * destruct (registry_wf_channel st m l Hwf Hm') as (lg & -> & Hl & _).
        rewrite lookup_app_l; [done|]. by eapply lookup_lt_Some.
      * by rewrite channel_None.
Qed.

Lemma apply_default_idem (lvl : Z) (lg : Logger) :
  apply_default lvl (apply_default lvl lg) = apply_default lvl lg.
Proof. unfold apply_default. by destruct lg as [? ? [] ? ?]. Qed.

Lemma apply_default_keeps_identity (lvl : Z) : keeps_identity (apply_default lvl).
Proof. intros lg. unfold apply_default. by destruct (level_is_overridden lg). Qed.

Lemma reset_logger_idem (lg : Logger) : reset_logger (reset_logger lg) = reset_logger lg.
Proof. done. Qed.

Lemma reset_logger_keeps_identity : keeps_identity reset_logger.
Proof. by intros lg. Qed.

Lemma channel_set_default (lvl : Z) (st : State) (n : string) :
  channel (set_default_log_level lvl st) n = apply_default lvl <$> channel st n.
Proof.
  unfold set_default_log_level.
  rewrite <- (channel_for_each_logger (apply_default lvl) st n)
    by apply apply_default_idem.
  by apply channel_ext.
Qed.

Lemma channel_reset (st : State) (n : string) :
  channel (reset_log_levels st) n = reset_logger <$> channel st n.
Proof.
  unfold reset_log_levels.
  rewrite <- (channel_for_each_logger reset_logger st n) by apply reset_logger_idem.
  by apply channel_ext.
Qed.

Lemma channel_set_level_override (n : string) (lvl : Z) (st : State) (m : string) :
  registry_wf st →
  channel (set_level_override n lvl st) m =
    if decide (m = n)
    then Some (set_level lvl (default (fresh_logger st n) (channel st n)))
    else channel st m.
Proof.
  intros Hwf. unfold set_level_override.
  pose proof (get_or_create_registered st n) as Hreg.
  pose proof (registry_wf_get_or_create st n Hwf) as Hwf1.
  pose proof (channel_get_or_create st n) as Hch.
  destruct (get_or_create_log_channel n st) as [l st1]. simpl in *.
  transitivity (channel (with_heap (alter (set_level lvl) l (heap st1)) st1) m).
  { by apply channel_ext. }
  rewrite (channel_alter _ st1 n m l) by done.
  rewrite !Hch by done. case_decide; [|done].
  by rewrite decide_True.
Qed.

Lemma set_default_settings (lvl : Z) (st : State) :
  let st' := set_default_log_level lvl st in
  _default_log_level st' = lvl ∧
  _level_overrides st' = <["default" := lvl]> (_level_overrides st) ∧
  config st' = Some (_level_overrides st').
Proof. done. Qed.

Lemma reset_settings (st : State) :
  let st' := reset_log_levels st in
  _default_log_level st' = INFO ∧
  _level_overrides st' = {["default" := INFO]} ∧
  config st' = Some (_level_overrides st').
Proof. done. Qed.

Lemma set_level_override_settings (n : string) (lvl : Z) (st : State) :
  let st' := set_level_override n lvl st in
  _default_log_level st' = _default_log_level st ∧
  _level_overrides st' = <[n := lvl]> (_level_overrides st) ∧
  config st' = Some (_level_overrides st').
Proof.
  unfold set_level_override.
  pose proof (get_or_create_settings st n) as (Hd & Ho & Hc).
  destruct (get_or_create_log_channel n st) as [l st1]. simpl in *.
  by rewrite Hd, Ho.
Qed.

Lemma registry_wf_run_op (o : op) (st : State) :
  registry_wf st → registry_wf (run_op o st).
Proof.
  intros Hwf. destruct o as [n | lvl | n lvl |]; simpl.
  - by apply registry_wf_get_or_create.
  - apply (registry_wf_ext (for_each_logger (apply_default lvl) st)); [done..|].
    by apply registry_wf_for_each_logger;
      [apply apply_default_idem | apply apply_default_keeps_identity |].
  - unfold set_level_override.
    pose proof (registry_wf_get_or_create st n Hwf) as Hwf1.
    destruct (get_or_create_log_channel n st) as [l st1]. simpl in *.
    by apply (registry_wf_alter (set_level lvl) st1 l).
  - apply (registry_wf_ext (for_each_logger reset_logger st)); [done..|].
    by apply registry_wf_for_each_logger;
      [apply reset_logger_idem | apply reset_logger_keeps_identity |].
Qed.

Lemma registry_wf_run_ops (ops : list op) (st : State) :
  registry_wf st → registry_wf (run_ops ops st).
Proof.
  revert st. induction ops as [|o ops IH]; intros st Hwf; [done|].
  apply IH. by apply registry_wf_run_op.
Qed.

Lemma run_op_keeps (o : op) (st : State) (m : string) (l : loc) :
  _loggers st !! m = Some l → _loggers (run_op o st) !! m = Some l.
Proof.
  intros Hm. destruct o as [n | lvl | n lvl |]; simpl; try done.
  - by apply get_or_create_keeps.
  - unfold set_level_override.
    pose proof (get_or_create_keeps st n m l Hm) as Hk.
    by destruct (get_or_create_log_channel n st) as [l' st1].
Qed.

Lemma run_ops_cons (o : op) (ops : list op) (st : State) :
  run_ops (o :: ops) st = run_ops ops (run_op o st).
Proof. done. Qed.

Lemma run_ops_keeps (ops : list op) (st : State) (m : string) (l : loc) :
  _loggers st !! m = Some l → _loggers (run_ops ops st) !! m = Some l.
Proof.
  revert st. induction ops as [|o ops IH]; intros st Hm; [done|].
  apply IH. by apply run_op_keeps.
Qed.

(** ** Overrides and the default threshold *)

(** C2: after [set_level_override n L] channel [n] has threshold [L] and is
    flagged as overridden; a following [set_default_log_level L2] gives
    every channel that is not flagged the threshold [L2], leaves every
    flagged channel as it is, and so leaves channel [n] at [L]. *)
Theorem override_survives_default (n : string) (L L2 : Z) (st : State) :
  registry_wf st →
  let st1 := set_level_override n L st in
  let st2 := set_default_log_level L2 st1 in
  (∃ lg, channel st1 n = Some lg ∧ level lg = L ∧ level_is_overridden lg = true) ∧
  (∀ m lg, channel st1 m = Some lg → level_is_overridden lg = false →
     ∃ lg', channel st2 m = Some lg' ∧ level lg' = L2) ∧
  (∀ m lg, channel st1 m = Some lg → level_is_overridden lg = true →
     channel st2 m = Some lg) ∧
  (∃ lg, channel st2 n = Some lg ∧ level lg = L ∧ level_is_overridden lg = true) ∧
  _default_log_level st2 = L2.
Proof.
  intros Hwf st1 st2.
  assert (channel st1 n =
          Some (set_level L (default (fresh_logger st n) (channel st n)))) as Hn.
  { unfold st1. rewrite channel_set_level_override by done. by rewrite decide_True. }
  assert (∀ m lg, channel st1 m = Some lg → level_is_overridden lg = true →
            channel st2 m = Some lg) as Hkeep.
  { intros m lg Hm Hflag. unfold st2. rewrite channel_set_default, Hm. simpl.
    unfold apply_default. by rewrite Hflag. }
  split; [by eexists|]. split; [|split; [done|split; [|done]]].
  - intros m lg Hm Hflag. eexists. unfold st2.
    rewrite channel_set_default, Hm. simpl. split; [done|].
    unfold apply_default. by rewrite Hflag.
  - eexists. split; [by apply Hkeep|done].
Qed.

(** The same holds after any number of further changes of the default. *)
Lemma flagged_survives_defaults (Ls : list Z) (st : State) (n : string) (lg : Logger) :
  channel st n = Some lg → level_is_overridden lg = true →
  channel (run_ops (SetDefault <$> Ls) st) n = Some lg.
Proof.
  revert st. induction Ls as [|L Ls IH]; intros st Hn Hflag; [done|].
  rewrite fmap_cons, run_ops_cons. apply IH; [|done]. simpl.
  rewrite channel_set_default, Hn. simpl. unfold apply_default. by rewrite Hflag.
Qed.

(** ** Reset *)

(** C5: after [reset_log_levels], from any state, the default threshold is
    INFO (3), the overrides table is exactly [{"default": INFO}] and so is
    the persisted configuration, and every existing channel has threshold
    INFO and is no longer flagged as overridden. *)
Theorem reset_restores_INFO (st : State) :
  let st' := reset_log_levels st in
  INFO = 3%Z ∧
  _default_log_level st' = INFO ∧
  _level_overrides st' = {["default" := INFO]} ∧
  config st' = Some {["default" := INFO]} ∧
  (∀ n lg, channel st n = Some lg →
     ∃ lg', channel st' n = Some lg' ∧ level lg' = INFO ∧
            level_is_overridden lg' = false ∧
            name lg' = name lg ∧ path lg' = path lg) ∧
  (∀ n, channel st n = None → channel st' n = None).
Proof.
  intros st'. repeat split; try done.
  - intros n lg Hn. exists (reset_logger lg). unfold st'.
    by rewrite channel_reset, Hn.
  - intros n Hn. unfold st'. by rewrite channel_reset, Hn.
Qed.

(** ** The overrides table and the overridden flag *)

Lemma overrides_flagged_run_op (o : op) (st : State) :
  registry_wf st → overrides_flagged st → overrides_flagged (run_op o st).
Proof.
  intros Hwf Hinv.
  intros m lg Hm Hov Hch. destruct o as [n | lvl | n lvl |]; simpl in *.
  - destruct (get_or_create_settings st n) as (_ & Ho & _). rewrite Ho in Hov.
    rewrite channel_get_or_create in Hch by done. case_decide as Hmn.
    + subst m. destruct (channel st n) as [lg'|] eqn:Hn; simpl in Hch.
      * injection Hch as <-. by apply (Hinv n).
      * injection Hch as <-. unfold fresh_logger.
        by destruct Hov as [v ->].
    + by apply (Hinv m).
  - rewrite channel_set_default in Hch.
    rewrite lookup_insert_ne in Hov by done.
    destruct (channel st m) as [lg'|] eqn:Hn; simpl in Hch; [|done].
    injection Hch as <-. unfold apply_default.
    pose proof (Hinv m lg' Hm Hov Hn) as Hflag. by rewrite Hflag.
  - rewrite channel_set_level_override in Hch by done.
    destruct (set_level_override_settings n lvl st) as (_ & Ho & _).
    rewrite Ho in Hov. case_decide as Hmn.
    + by injection Hch as <-.
    + rewrite lookup_insert_ne in Hov by done. by apply (Hinv m).
  - rewrite lookup_insert_ne in Hov by done.
    rewrite lookup_empty in Hov. by destruct Hov.
Qed.

(** C7: every registry operation preserves the invariant that a created
    channel whose name is in the overrides table (other than the reserved
    key) is flagged as overridden. *)
Theorem overrides_flagged_preserved (o : op) (st : State) :
  registry_wf st → overrides_flagged st →
  registry_wf (run_op o st) ∧ overrides_flagged (run_op o st).
Proof.
  intros Hwf Hinv.
  split; [by apply registry_wf_run_op | by apply overrides_flagged_run_op].
Qed.

(** ** Persistence of the configuration *)

Lemma boot_consistent (fs : gmap string string) (cfg : option (gmap string Z)) :
  ∃ st0, _LOGSERVICE fs cfg = Ok st0 ∧ consistent st0 ∧
         _loggers st0 = ∅ ∧
         _level_overrides st0 = default {["default" := INFO]} cfg.
Proof.
  unfold _LOGSERVICE, _LogService__init__. simpl.
  destruct cfg as [json|]; simpl;
    [destruct (json !! "default") as [d|] eqn:Hd|];
    (eexists; split; [done|]; split; [|done]);
    (split; [|split; [|split]]); simpl; try done.
  all: try by (intros n l Hn; simpl in Hn; rewrite lookup_empty in Hn).
  all: try by (intros n lg _ Hn; unfold channel in Hn; simpl in Hn;
               rewrite lookup_empty in Hn).
  all: by rewrite Hd.
Qed.

Lemma consistent_run_op (o : op) (st : State) :
  no_default_override o → consistent st → consistent (run_op o st).
Proof.
  intros Hok (Hwf & Hcfg & Hdef & Hlev).
  split; [by apply registry_wf_run_op|].
  destruct o as [n | lvl | n lvl |]; simpl in *.
  - destruct (get_or_create_settings st n) as (Hd & Ho & Hc).
    unfold expected_level. rewrite Hd, Ho, Hc. split; [done|]. split; [done|].
    intros m lg Hm Hch. rewrite channel_get_or_create in Hch by done.
    case_decide as Hmn; [|by apply Hlev]. subst m.
    destruct (channel st n) as [lg'|] eqn:Hn; simpl in Hch.
    + injection Hch as <-. by apply Hlev.
    + injection Hch as <-. unfold fresh_logger.
      destruct (_level_overrides st !! n) as [v|]; simpl; split; try done.
      all: split; intros H; try done; try (by eexists); by destruct H.
  - split; [done|]. split; [by rewrite lookup_insert_eq|].
    intros m lg Hm Hch. rewrite channel_set_default in Hch.
    unfold expected_level. simpl. rewrite lookup_insert_ne by done.
    destruct (channel st m) as [lg'|] eqn:Hn; simpl in Hch; [|done].
    injection Hch as <-. destruct (Hlev m lg' Hm Hn) as [Hl Hf].
    unfold apply_default, expected_level in *.
    destruct (level_is_overridden lg') eqn:Hflag.
    + split; [|by rewrite Hflag]. rewrite Hl. destruct Hf as [Hf _].
      by destruct (Hf eq_refl) as [v ->].
    + simpl. split; [|done].
      destruct (_level_overrides st !! m) as [v|]; [|done].
      destruct Hf as [_ Hf]. by discriminate Hf.
  - destruct (set_level_override_settings n lvl st) as (Hd & Ho & Hc).
    unfold expected_level. rewrite Hd, Hc, Ho. split; [done|].
    split; [by rewrite lookup_insert_ne|].
    intros m lg Hm Hch. rewrite channel_set_level_override in Hch by done.
    case_decide as Hmn.
    + subst m. injection Hch as <-. rewrite lookup_insert_eq. simpl.
      split; [done|]. split; [by eexists|done].
    + rewrite lookup_insert_ne by done. by apply Hlev.
  - split; [done|]. split; [done|].
    intros m lg Hm Hch. rewrite channel_reset in Hch.
    destruct (channel st m) as [lg'|]; simpl in Hch; [|done].
    injection Hch as <-. unfold expected_level. simpl.
    rewrite lookup_insert_ne by done. rewrite lookup_empty. simpl.
    split; [done|]. split; [done|]. by intros [? ?].
Qed.

Lemma consistent_run_ops (ops : list op) (st : State) :
  Forall no_default_override ops → consistent st → consistent (run_ops ops st).
Proof.
  revert st. induction ops as [|o ops IH]; intros st Hok Hc; [done|].
  apply Forall_cons in Hok as [Ho Hok]. apply IH; [done|].
  by apply consistent_run_op.
Qed.

Lemma run_ops_creates_settings (ns : list string) (st : State) :
  let st' := run_ops (GetOrCreate <$> ns) st in
  _default_log_level st' = _default_log_level st ∧
  _level_overrides st' = _level_overrides st.
Proof.
  revert st. induction ns as [|n ns IH]; intros st; [done|].
  destruct (IH (run_op (GetOrCreate n) st)) as [Hd Ho].
  destruct (get_or_create_settings st n) as (Hd' & Ho' & _).
  split; [etrans; [exact Hd | exact Hd'] | etrans; [exact Ho | exact Ho']].
Qed.

Lemma channel_survives (ops : list op) (st : State) (n : string) :
  registry_wf st → is_Some (channel st n) → is_Some (channel (run_ops ops st) n).
Proof.
  intros Hwf [lg Hch]. unfold channel in Hch.
  destruct (_loggers st !! n) as [l|] eqn:Hn; [|done].
  pose proof (run_ops_keeps ops st n l Hn) as Hn'.
  pose proof (registry_wf_run_ops ops st Hwf) as Hwf'.
  destruct (registry_wf_channel _ n l Hwf' Hn') as (lg' & Hch' & _).
  by exists lg'.
Qed.

Lemma channel_created (o : op) (st : State) (n : string) :
  registry_wf st → o = GetOrCreate n ∨ (∃ lvl, o = SetOverride n lvl) →
  is_Some (channel (run_op o st) n).
Proof.
  intros Hwf [-> | [lvl ->]]; simpl.
  - rewrite channel_get_or_create by done. by rewrite decide_True.
  - rewrite channel_set_level_override by done. by rewrite decide_True.
Qed.

Lemma overridden_channel_exists (ops : list op) (st : State) (n : string) :
  registry_wf st → n ∈ overridden_names ops → is_Some (channel (run_ops ops st) n).
Proof.
  revert st. induction ops as [|o ops IH]; intros st Hwf Hin.
  { by apply elem_of_nil in Hin. }
  pose proof (registry_wf_run_op o st Hwf) as Hwf'.
  assert ((∃ lvl, o = SetOverride n lvl) ∨ n ∈ overridden_names ops) as [Ho | Hin'].
  { unfold overridden_names in *. destruct o as [m | lvl | m lvl |]; simpl in Hin;
      try by right.
    apply elem_of_cons in Hin as [-> | Hin]; [left; by eexists | by right]. }
  - apply (channel_survives ops (run_op o st)); [done|].
    apply channel_created; [done | by right].
  - by apply (IH (run_op o st)).
Qed.

Lemma created_channel_exists (ns : list string) (st : State) (n : string) :
  registry_wf st → n ∈ ns → is_Some (channel (run_ops (GetOrCreate <$> ns) st) n).
Proof.
  revert st. induction ns as [|m ns IH]; intros st Hwf Hin.
  { by apply elem_of_nil in Hin. }
  pose proof (registry_wf_run_op (GetOrCreate m) st Hwf) as Hwf'.
  rewrite fmap_cons, run_ops_cons.
  apply elem_of_cons in Hin as [-> | Hin].
  - apply (channel_survives (GetOrCreate <$> ns) (run_op (GetOrCreate m) st)); [done|].
    apply channel_created; [done | by left].
  - by apply (IH (run_op (GetOrCreate m) st)).
Qed.

Lemma overridden_names_not_default (ops : list op) (n : string) :
  Forall no_default_override ops → n ∈ overridden_names ops → n ≠ "default".
Proof.
  induction ops as [|o ops IH]; intros Hok Hin.
  { by apply elem_of_nil in Hin. }
  apply Forall_cons in Hok as [Ho Hok]. unfold overridden_names in *.
  destruct o as [m | lvl | m lvl |]; simpl in Hin; try by apply IH.
  apply elem_of_cons in Hin as [-> | Hin]; [done | by apply IH].
Qed.

(** C3 (amended): the round trip holds for every sequence of operations
    that never overrides a channel named ["default"], the key under which
    the table keeps the default threshold. *)
Theorem reload_reproduces_thresholds (fs : gmap string string)
    (cfg : option (gmap string Z)) (ops : list op) :
  Forall no_default_override ops → round_trip fs cfg ops.
Proof.
  intros Hok.
  destruct (boot_consistent fs cfg) as (st0 & Hboot & Hcons0 & _).
  exists st0. split; [done|]. intros st.
  assert (consistent st) as Hcons by by apply consistent_run_ops.
  destruct Hcons as (Hwf & Hcfg & Hdef & Hlev).
  destruct (boot_consistent (files st) (config st)) as (st' & Hboot' & Hcons' & _ & Hov').
  rewrite Hcfg in Hov'. simpl in Hov'.
  assert (_default_log_level st' = _default_log_level st) as Hd'.
  { destruct Hcons' as (_ & _ & -> & _). by rewrite Hov', Hdef. }
  exists st'. split; [done|]. split; [done|].
  intros n Hn.
  set (st'' := run_ops (GetOrCreate <$> overridden_names ops) st').
  assert (n ≠ "default") as Hnd by by eapply overridden_names_not_default.
  destruct (overridden_channel_exists ops st0 n) as [lg Hlg]; [by apply Hcons0|done|].
  destruct (created_channel_exists (overridden_names ops) st' n) as [lg' Hlg'];
    [by apply Hcons'|done|].
  exists lg, lg'. split; [done|]. split; [done|].
  assert (consistent st'') as (_ & _ & _ & Hlev'').
  { apply consistent_run_ops; [|done].
    apply Forall_fmap, Forall_forall. by intros. }
  destruct (run_ops_creates_settings (overridden_names ops) st') as [Hd'' Ho''].
  destruct (Hlev n lg Hnd Hlg) as [-> _].
  destruct (Hlev'' n lg' Hnd Hlg') as [-> _].
  unfold expected_level. fold st'' in Hd'', Ho''. by rewrite Hd'', Ho'', Hd', Hov'.
Qed.

(** The invariant of C7 holds when the registry is constructed, hence in
    every state the registry reaches. *)
Lemma overrides_flagged_reachable (fs : gmap string string)
    (cfg : option (gmap string Z)) (ops : list op) :
  ∃ st0, _LOGSERVICE fs cfg = Ok st0 ∧
         registry_wf (run_ops ops st0) ∧ overrides_flagged (run_ops ops st0).
Proof.
  destruct (boot_consistent fs cfg) as (st0 & Hboot & (Hwf & _) & Hempty & _).
  exists st0. split; [done|].
  assert (overrides_flagged st0) as Hinv.
  { intros n lg _ _ Hch. unfold channel in Hch. rewrite Hempty in Hch.
    by rewrite lookup_empty in Hch. }
  clear Hboot Hempty. revert st0 Hwf Hinv.
  induction ops as [|o ops IH]; intros st0 Hwf Hinv; [done|].
  apply IH; [by apply registry_wf_run_op | by apply overrides_flagged_run_op].
Qed.

(** ** Categories *)

Lemma elem_of_logger_names (m : gmap string loc) (n : string) :
  n ∈ (map_to_list m).*1 ↔ is_Some (m !! n).
Proof.
  rewrite list_elem_of_fmap. split.
  - intros ([n' l] & -> & Hin). exists l. by apply elem_of_map_to_list.
  - intros [l Hl]. exists (n, l). split; [done|]. by apply elem_of_map_to_list.
Qed.

(** Sorting the keys of the dict gives the one sorted list of its names. *)
Lemma sorted_logger_names_unique (st : State) (T : list string) :
  StronglySorted String.le T → NoDup T →
  (∀ n, n ∈ T ↔ is_Some (_loggers st !! n)) →
  sorted_logger_names st = T.
Proof.
  intros Hsorted Hnodup Hmem. unfold sorted_logger_names.
  apply (StronglySorted_unique String.le).
  - apply StronglySorted_merge_sort; apply _.
  - done.
  - rewrite merge_sort_Permutation.
    apply NoDup_Permutation; [apply NoDup_fst_map_to_list | done |].
    intros n. by rewrite elem_of_logger_names, Hmem.
Qed.

Lemma categories_loop_ids (names : list string)
    (acc : list string * list enum_item * Z) :
  enum_ids acc.1.2 = "ALL" :: acc.1.1 →
  enum_ids (foldl categories_step acc names).1.2 =
    "ALL" :: foldl (λ seen x, if bool_decide (x ∈ seen) then seen else seen ++ [x])
               acc.1.1 (category_of <$> names).
Proof.
  revert acc. induction names as [|nm names IH]; intros [[cn cats] cur] Hacc; [done|].
  rewrite fmap_cons. simpl foldl. rewrite IH.
  - unfold categories_step. by destruct (bool_decide (category_of nm ∈ cn)).
  - unfold categories_step. simpl in *.
    destruct (bool_decide (category_of nm ∈ cn)); [done|]. simpl.
    unfold enum_ids in *. rewrite !fmap_app, Hacc. done.
Qed.

Lemma categories_ids (st : State) :
  enum_ids (get_loggers_categories_as_property_enum st) =
    "ALL" :: first_occurrences (category_of <$> sorted_logger_names st).
Proof. unfold get_loggers_categories_as_property_enum. by rewrite categories_loop_ids. Qed.

(** C8: with exactly the channels ["a.b"], ["a.c"] and ["z"] registered, in
    whatever order they were created, the categories are ALL, a, z in
    this order. *)
Theorem categories_scenario (st : State) :
  dom (_loggers st) = {["a.b"; "a.c"; "z"]} →
  sorted_logger_names st = ["a.b"; "a.c"; "z"] ∧
  get_loggers_categories_as_property_enum st =
    [("ALL", "(no filter)", "Do not filter: show all loggers", 0%Z);
     ("a", "a", "a", 1%Z); ("z", "z", "z", 2%Z)] ∧
  enum_ids (get_loggers_categories_as_property_enum st) = ["ALL"; "a"; "z"].
Proof.
  intros Hdom.
  assert (sorted_logger_names st = ["a.b"; "a.c"; "z"]) as Hnames.
  { apply sorted_logger_names_unique.
    - repeat constructor; by vm_compute.
    - by apply (bool_decide_unpack (NoDup ["a.b"; "a.c"; "z"])).
    - intros n. rewrite <- elem_of_dom, Hdom.
      rewrite !elem_of_union, !elem_of_singleton, !elem_of_cons, elem_of_nil.
      tauto. }
  split; [done|].
  unfold get_loggers_categories_as_property_enum. rewrite Hnames. done.
Qed.

(** ** Constructing the classes *)

(** C9 (amended): instantiating the public class [LogService] raises a
    [RuntimeError] in every state; the module-level construction of the
    registry succeeds and yields a registry without channels whose
    overrides table is on disk; the registry class has no guard of its
    own, so its constructor succeeds in every state. *)
Theorem LogService_not_instantiable (st : State) (fs : gmap string string)
    (cfg : option (gmap string Z)) :
  LogService__init__ st =
    Raise (RuntimeError
             "You should not instance LogService. Use its static methods instead.") ∧
  (∃ st0, _LOGSERVICE fs cfg = Ok st0 ∧ _loggers st0 = ∅ ∧
          config st0 = Some (_level_overrides st0) ∧
          files st0 !! _COMBINED = Some EmptyString) ∧
  (∃ st', _LogService__init__ st = Ok st' ∧ _loggers st' = ∅).
Proof.
  split; [done|]. split.
  - unfold _LOGSERVICE, _LogService__init__. simpl.
    destruct cfg as [json|]; simpl; [destruct (json !! "default")|];
      (eexists; split; [done|]); simpl; unfold write_file;
      by rewrite lookup_insert_eq.
  - unfold _LogService__init__.
    destruct (config st) as [json|] eqn:Hc; simpl; rewrite Hc;
      [destruct (json !! "default")|]; by eexists.
Qed.

End LogServiceProperties.

Section LoggerProperties.

Context {host : Host}.

(** ** Levels outside the table of labels *)

Lemma LOGLEVELS_lookup_None (lvl : Z) :
  py_getitem LOGLEVELS lvl = None ↔ (lvl < -7 ∨ 6 < lvl)%Z.
Proof.
  unfold py_getitem. change (length LOGLEVELS) with 7.
  destruct (Z.leb_spec 0 lvl) as [Hpos | Hneg].
  - rewrite lookup_ge_None. change (length LOGLEVELS) with 7. lia.
  - destruct (Z.leb_spec (- Z.of_nat 7) lvl) as [Hin | Hout].
    + rewrite lookup_ge_None. change (length LOGLEVELS) with 7. lia.
    + split; [lia | done].
Qed.

(** X1: [_log_message] raises exactly when the level passes the threshold
    but has no label, that is above 6 or below -7, and the exception is
    [IndexError]; the labels are indexed as a Python list, so a level from
    -7 to -1 that passes the threshold does not raise: the message is
    written under the label counted from the end (-1 gives DUMP). *)
Theorem log_message_raises_iff (self : Logger) (lvl : Z) (message : string)
    (extra_object : pyval) (st : State) :
  (_log_message self lvl message extra_object st = Raise IndexError
   ↔ (lvl ≤ level self)%Z ∧ (lvl < -7 ∨ 6 < lvl)%Z) ∧
  ((lvl ≤ level self)%Z → (-7 ≤ lvl < 0)%Z →
     ∃ label st',
       LOGLEVELS !! Z.to_nat (7 + lvl) = Some label ∧
       _log_message self lvl message extra_object st = Ok st' ∧
       stdout st' = stdout st ++ [long_line self label message extra_object]).
Proof.
  unfold _log_message. destruct (Z.leb_spec lvl (level self)) as [Hle | Hgt].
  - destruct (py_getitem LOGLEVELS lvl) as [label|] eqn:Hget.
    + split.
      * split; [done|]. intros [_ Hout].
        apply LOGLEVELS_lookup_None in Hout. congruence.
      * intros _ Hneg. exists label. eexists. split; [|done].
        unfold py_getitem in Hget. change (length LOGLEVELS) with 7 in Hget.
        rewrite (proj2 (Z.leb_gt 0 lvl)) in Hget by lia.
        by rewrite (proj2 (Z.leb_le (- Z.of_nat 7) lvl)) in Hget by lia.
    + split.
      * split; [|done]. intros _. split; [done|]. by apply LOGLEVELS_lookup_None.
      * intros _ Hneg. apply LOGLEVELS_lookup_None in Hget. lia.
  - split; [|lia]. split; [done|]. lia.
Qed.

(** X2: a channel records nothing at all, whatever the severity method,
    exactly when its threshold is negative; thresholds are not validated,
    so even [crash] is silenced by a threshold of -1. *)
Theorem silent_iff_negative_threshold (self : Logger) (st : State) :
  (∀ s message extra_object, (0 ≤ s ≤ 6)%Z →
     _log_message self s message extra_object st = Ok st)
  ↔ (level self < 0)%Z.
Proof.
  split.
  - intros Hsilent. destruct (Z.lt_ge_cases (level self) 0) as [Hneg | Hpos]; [done|].
    specialize (Hsilent CRASH EmptyString PyNone). unfold CRASH in Hsilent.
    unfold _log_message in Hsilent.
    rewrite (proj2 (Z.leb_le 0 (level self))) in Hsilent by done.
    simpl in Hsilent. injection (Hsilent ltac:(lia)) as Heq.
    apply (f_equal stdout) in Heq. simpl in Heq. by apply print_grows in Heq.
  - intros Hneg s message extra_object Hs. apply log_message_rejected. lia.
Qed.

(** X3: [debug_enabled] tells whether [debug] writes: it is true exactly
    when a debug message is recorded and false exactly when [debug]
    changes nothing. *)
Theorem debug_enabled_iff_debug_recorded (self : Logger) (message : string)
    (extra_object : pyval) (st : State) :
  Logger_wf self →
  (debug_enabled self = true →
     ∃ st', debug self message extra_object st = Ok st' ∧
            recorded self DEBUG message extra_object st st') ∧
  (debug_enabled self = false → debug self message extra_object st = Ok st).
Proof.
  intros Hwf. unfold debug_enabled, debug. split; intros Hen.
  - apply Z.leb_le in Hen. by apply log_message_accepted.
  - apply Z.leb_gt in Hen. by apply log_message_rejected.
Qed.

(** X4: [enter] does nothing below the TRACE threshold, whatever the
    caller's frame; from TRACE on it reads ["__name__"] and then
    ["__file__"] from the caller's globals and raises [KeyError] when one
    is missing (although the file name is not used); otherwise it records
    the TRACE message "Now entering <module>.<function>():<line>". *)
Theorem enter_behaviour (self : Logger) (stack : Frame) (st : State) :
  Logger_wf self →
  ((level self < TRACE)%Z → enter self stack st = Returns st) ∧
  ((TRACE ≤ level self)%Z →
     match f_globals stack !! "__name__", f_globals stack !! "__file__" with
     | None, _ => enter self stack st = Throws (KeyError "__name__")
     | Some _, None => enter self stack st = Throws (KeyError "__file__")
     | Some caller_name, Some _ =>
       ∃ st', enter self stack st = Returns st' ∧
         recorded self TRACE
           (enter_message caller_name (f_function stack) (pretty (f_lineno stack)))
           PyNone st st'
     end).
Proof.
  intros Hwf. unfold enter. split; intros Hlevel.
  - by rewrite (proj2 (Z.leb_gt TRACE (level self))).
  - rewrite (proj2 (Z.leb_le TRACE (level self))) by done.
    destruct (f_globals stack !! "__name__") as [caller_name|]; [|done].
    destruct (f_globals stack !! "__file__") as [file_name|]; [|done].
    destruct (log_message_accepted self TRACE
                (enter_message caller_name (f_function stack) (pretty (f_lineno stack)))
                PyNone st) as (st' & Hrun & Hrec); [done | done | done |].
    exists st'. simpl. by rewrite Hrun.
Qed.

(** ** The timer *)

(** X5: the timer of a channel starts at the import of the module, not at
    the creation of the channel: a channel created at any moment reports
    [now - _START]; after [reset_timer] at [t0] it reports [now - t0], its
    threshold and flag are as before, and the other channels are not
    affected. *)
Theorem timer_origin (n : string) (st : State) :
  registry_wf st → _loggers st !! n = None →
  let l := (get_or_create_log_channel n st).1 in
  let st1 := (get_or_create_log_channel n st).2 in
  ∃ lg, channel st1 n = Some lg ∧
    (∀ now, get_current_time lg now = (now - _START)%Z) ∧
    ∀ t0, ∃ lg', channel (reset_timer_at l t0 st1) n = Some lg' ∧
      (∀ now, get_current_time lg' now = (now - t0)%Z) ∧
      level lg' = level lg ∧ level_is_overridden lg' = level_is_overridden lg ∧
      (∀ m, m ≠ n → channel (reset_timer_at l t0 st1) m = channel st1 m).
Proof.
  intros Hwf Hnew l st1.
  pose proof (registry_wf_get_or_create st n Hwf) as Hwf1. fold st1 in Hwf1.
  pose proof (get_or_create_registered st n) as Hreg. fold l st1 in Hreg.
  assert (channel st1 n = Some (fresh_logger st n)) as Hch.
  { unfold st1. rewrite channel_get_or_create by done. rewrite decide_True by done.
    by rewrite (channel_None st n). }
  exists (fresh_logger st n). split; [done|]. split.
  { intros now. unfold get_current_time, fresh_logger.
    by destruct (_level_overrides st !! n). }
  intros t0. exists (reset_timer t0 (fresh_logger st n)). split.
  { unfold reset_timer_at. rewrite (channel_alter _ st1 n n l) by done.
    rewrite decide_True by done. by rewrite Hch. }
  split; [done|]. split; [done|]. split; [done|].
  intros m Hm. unfold reset_timer_at. rewrite (channel_alter _ st1 n m l) by done.
  by rewrite decide_False.
Qed.

(** X6: [time] writes the elapsed milliseconds as the extra text of a DEBUG
    record, also when they are 0; below the DEBUG threshold it writes
    nothing. *)
Theorem time_records_elapsed (self : Logger) (now : Z) (message : string) (st : State) :
  Logger_wf self →
  format_extra (PyInt (now - time_stamp self)) = " " +:+ pretty (now - time_stamp self)%Z ∧
  ((DEBUG ≤ level self)%Z →
     ∃ st', time self now message st = Ok st' ∧
            recorded self DEBUG message (PyInt (get_current_time self now)) st st') ∧
  ((level self < DEBUG)%Z → time self now message st = Ok st).
Proof.
  intros Hwf. split; [done|]. unfold time, get_current_time. split; intros Hlevel.
  - by apply log_message_accepted.
  - by apply log_message_rejected.
Qed.

(** ** The layout of the long line *)

Lemma string_app_assoc (s t u : string) : (s +:+ t) +:+ u = s +:+ t +:+ u.
Proof.
  induction s as [|c s IH]; [done|].
  change (String c ((s +:+ t) +:+ u) = String c (s +:+ t +:+ u)). by rewrite IH.
Qed.

Lemma py_len_app (s t : string) : py_len (s +:+ t) = py_len s + py_len t.
Proof.
  induction s as [|c s IH]; [done|].
  change (py_len (String c (s +:+ t)) = py_len (String c s) + py_len t).
  simpl. rewrite IH. lia.
Qed.

Lemma py_len_dots (n : nat) : py_len (fill_str n ".") = n.
Proof.
  induction n as [|n IH]; [done|].
  change (1 + py_len (fill_str n ".") = S n). by rewrite IH.
Qed.

Lemma ljust_dots_py_len (s : string) (width : nat) :
  py_len (ljust s width ".") = Nat.max width (py_len s).
Proof. unfold ljust. rewrite py_len_app, py_len_dots. lia. Qed.

(** X7: in the long line the message starts at a fixed column, counted in
    characters as [str.ljust] counts them: after the label (all labels
    have five characters) and the channel name padded with dots to 40
    characters, which makes 50 characters for a name of at most 39; a
    longer name is not cut, it moves the message to the right. *)
Theorem long_line_alignment (self : Logger) (label message : string)
    (extra_object : pyval) :
  label ∈ LOGLEVELS →
  ∃ prefix,
    long_line self label message extra_object =
      prefix +:+ message +:+ format_extra extra_object ∧
    py_len prefix = 10 + Nat.max 40 (S (py_len (name self))) ∧
    (py_len (name self) ≤ 39 → py_len prefix = 50).
Proof.
  intros Hlabel.
  assert (py_len label = 5) as Hlen.
  { unfold LOGLEVELS in Hlabel.
    repeat (apply elem_of_cons in Hlabel as [-> | Hlabel]; [done|]).
    by apply elem_of_nil in Hlabel. }
  exists ("[" +:+ label +:+ "] " +:+ ljust (name self +:+ " ") _JUSTIFICATION "." +:+ ": ").
  assert (py_len
            ("[" +:+ label +:+ "] " +:+ ljust (name self +:+ " ") _JUSTIFICATION "." +:+ ": ")
          = 10 + Nat.max 40 (S (py_len (name self)))) as Hprefix.
  { rewrite !py_len_app, ljust_dots_py_len, py_len_app, Hlen.
    change (py_len "[") with 1. change (py_len "] ") with 2.
    change (py_len " ") with 1. change (py_len ": ") with 2.
    unfold _JUSTIFICATION. lia. }
  split; [|split; [done|lia]].
  unfold long_line. by rewrite !string_app_assoc.
Qed.

(** ** Crash reports *)

(** X8: [log_crash] writes its report through [error]: the report is
    recorded from the threshold ERROR on, with the traceback lines and the
    exception text as extra, and a channel set to CRASH drops it; the
    previous hook, if any, runs afterwards in both cases. *)
Theorem log_crash_logs_at_ERROR (_LOG : Logger)
    (_OLD_EXCEPTHOOK : option (State → result State))
    (tb_lines : list string) (value : pyval) (st : State) :
  Logger_wf _LOG →
  ((ERROR ≤ level _LOG)%Z →
     ∃ st1,
       recorded _LOG ERROR "Unhandled crash"
         (PyStr (foldl (λ stacktrace line, stacktrace +:+ line) nl tb_lines
                 +:+ nl +:+ py_str value +:+ nl)) st st1 ∧
       log_crash _LOG _OLD_EXCEPTHOOK tb_lines value st =
         match _OLD_EXCEPTHOOK with Some hook => hook st1 | None => Ok st1 end) ∧
  ((level _LOG < ERROR)%Z →
     log_crash _LOG _OLD_EXCEPTHOOK tb_lines value st =
       match _OLD_EXCEPTHOOK with Some hook => hook st | None => Ok st end).
Proof.
  intros Hwf. unfold log_crash, error. split; intros Hlevel.
  - destruct (log_message_accepted _LOG ERROR "Unhandled crash"
                (PyStr (foldl (λ stacktrace line, stacktrace +:+ line) nl tb_lines
                 +:+ nl +:+ py_str value +:+ nl)) st)
      as (st1 & Hrun & Hrec); [done | done | done |].
    exists st1. split; [done|]. by rewrite Hrun.
  - by rewrite log_message_rejected.
Qed.

End LoggerProperties.

Section EnumProperties.

(** ** The sorted names *)

Lemma sorted_logger_names_perm (st : State) :
  sorted_logger_names st ≡ₚ (map_to_list (_loggers st)).*1.
Proof. apply merge_sort_Permutation. Qed.

Lemma elem_of_sorted_logger_names (st : State) (n : string) :
  n ∈ sorted_logger_names st ↔ is_Some (_loggers st !! n).
Proof. rewrite sorted_logger_names_perm. apply elem_of_logger_names. Qed.

Lemma NoDup_sorted_logger_names (st : State) : NoDup (sorted_logger_names st).
Proof. rewrite sorted_logger_names_perm. apply NoDup_fst_map_to_list. Qed.

Lemma sorted_logger_names_sorted (st : State) :
  StronglySorted String.le (sorted_logger_names st).
Proof. apply StronglySorted_merge_sort; apply _. Qed.

Lemma StronglySorted_filter_string (P : string → Prop) `{∀ x, Decision (P x)}
    (l : list string) :
  StronglySorted String.le l → StronglySorted String.le (filter P l).
Proof.
  induction 1 as [|x l Hsorted IH Hall]; [constructor|].
  rewrite filter_cons. case_decide; [|done].
  constructor; [done|]. apply Forall_forall. intros y Hy.
  apply list_elem_of_filter in Hy as [_ Hy].
  by eapply Forall_forall in Hall.
Qed.

(** ** Numbered entries *)

Lemma numbered_ids (k : Z) (ns : list string) : enum_ids (numbered k ns) = ns.
Proof.
  revert k. induction ns as [|n ns IH]; intros k; [done|].
  unfold enum_ids in *. simpl. by rewrite IH.
Qed.

Lemma enum_ids_cons (item : enum_item) (items : list enum_item) :
  enum_ids (item :: items) = item.1.1.1 :: enum_ids items.
Proof. done. Qed.

Lemma numbered_numbers (k : Z) (ns : list string) :
  enum_numbers (numbered k ns) = (λ i, k + Z.of_nat i)%Z <$> seq 0 (length ns).
Proof.
  revert k. induction ns as [|n ns IH]; intros k; [done|].
  unfold enum_numbers in *. simpl. rewrite IH. f_equal; [lia|].
  rewrite <- fmap_S_seq, <- list_fmap_compose.
  apply list_fmap_ext. intros i x _. simpl. lia.
Qed.

Lemma numbered_length (k : Z) (ns : list string) : length (numbered k ns) = length ns.
Proof. revert k. induction ns as [|n ns IH]; intros k; [done|]. simpl. by rewrite IH. Qed.

Lemma numbered_app (k : Z) (l1 l2 : list string) :
  numbered k (l1 ++ l2) = numbered k l1 ++ numbered (k + Z.of_nat (length l1)) l2.
Proof.
  revert k. induction l1 as [|n l1 IH]; intros k.
  - simpl. by rewrite Z.add_0_r.
  - simpl. rewrite IH. do 3 f_equal. lia.
Qed.

(** ** The list of channels *)

Lemma foldl_step {A B} (f : A → B → A) (a : A) (x : B) (l : list B) :
  foldl f a (x :: l) = foldl f (f a x) l.
Proof. done. Qed.

Lemma loggers_list_loop (f : string) (names : list string)
    (acc : list enum_item) (k : Z) :
  foldl (loggers_list_step f) (acc, k) names =
    (acc ++ numbered k (filter (λ n, passes_filter f n) names),
     (k + Z.of_nat (length (filter (λ n, passes_filter f n) names)))%Z).
Proof.
  revert acc k. induction names as [|n names IH]; intros acc k.
  { simpl. by rewrite app_nil_r, Z.add_0_r. }
  rewrite filter_cons.
  rewrite foldl_step.
  assert (loggers_list_step f (acc, k) n =
          if passes_filter f n then (acc ++ [(n, n, n, k)], (k + 1)%Z) else (acc, k))
    as -> by done.
  destruct (passes_filter f n).
  - rewrite decide_True by done. rewrite IH. simpl.
    rewrite <- app_assoc. simpl. f_equal. lia.
  - rewrite decide_False by (by intros []). by rewrite IH.
Qed.

Lemma loggers_list_unfold (f : string) (st : State) :
  get_loggers_list_as_property_enum f st =
    ("default", "default", "the default log level", 0%Z)
    :: numbered 1 (filter (λ n, passes_filter (effective_filter f) n)
                     (sorted_logger_names st)).
Proof.
  unfold get_loggers_list_as_property_enum. fold (effective_filter f).
  by rewrite loggers_list_loop.
Qed.

(** X9: [get_loggers_list_as_property_enum] returns the entry for the
    default threshold followed by one entry per sorted channel name that
    starts with the filter (all of them for the filter ["ALL"] or the
    empty one); the entries are numbered 0, 1, 2, ... without gaps. *)
Theorem loggers_list_spec (f : string) (st : State) :
  let items := get_loggers_list_as_property_enum f st in
  items = ("default", "default", "the default log level", 0%Z)
          :: numbered 1 (filter (λ n, passes_filter (effective_filter f) n)
                           (sorted_logger_names st)) ∧
  enum_numbers items = Z.of_nat <$> seq 0 (length items) ∧
  get_loggers_list_as_property_enum "ALL" st =
    get_loggers_list_as_property_enum EmptyString st.
Proof.
  intros items. unfold items. rewrite !loggers_list_unfold.
  split; [done|]. split; [|done].
  change (0%Z :: enum_numbers (numbered 1
            (filter (λ n, passes_filter (effective_filter f) n) (sorted_logger_names st)))
          = Z.of_nat <$> seq 0 (S (length (numbered 1
            (filter (λ n, passes_filter (effective_filter f) n) (sorted_logger_names st)))))).
  rewrite numbered_numbers, numbered_length. simpl. f_equal.
  rewrite <- fmap_S_seq, <- list_fmap_compose.
  apply list_fmap_ext. intros i x _. simpl. lia.
Qed.

(** X10: behind the first entry, a name is listed exactly when it is a
    registered channel that passes the filter; the names are in ascending
    order and none occurs twice. *)
Theorem loggers_list_members (f : string) (st : State) :
  let names := tail (enum_ids (get_loggers_list_as_property_enum f st)) in
  (∀ n, n ∈ names ↔
        is_Some (_loggers st !! n) ∧ passes_filter (effective_filter f) n = true) ∧
  StronglySorted String.le names ∧ NoDup names.
Proof.
  intros names.
  assert (names = filter (λ n, passes_filter (effective_filter f) n)
                    (sorted_logger_names st)) as ->.
  { unfold names. rewrite loggers_list_unfold. exact (numbered_ids 1 _). }
  split; [|split].
  - intros n. rewrite list_elem_of_filter, elem_of_sorted_logger_names.
    rewrite Is_true_true. tauto.
  - apply StronglySorted_filter_string, sorted_logger_names_sorted.
  - apply NoDup_filter, NoDup_sorted_logger_names.
Qed.

(** X11: the identifiers of the list are pairwise different exactly when
    no listed channel is itself named ["default"]; such a channel shares
    its identifier with the entry of the default threshold. *)
Theorem loggers_list_ids_unique_iff (f : string) (st : State) :
  NoDup (enum_ids (get_loggers_list_as_property_enum f st)) ↔
  ¬ (is_Some (_loggers st !! "default") ∧
     passes_filter (effective_filter f) "default" = true).
Proof.
  rewrite loggers_list_unfold, enum_ids_cons, numbered_ids. simpl.
  rewrite NoDup_cons, list_elem_of_filter, elem_of_sorted_logger_names.
  rewrite Is_true_true. split.
  - intros [Hnot _] [Hreg Hpass]. by apply Hnot.
  - intros Hnot. split; [tauto|]. apply NoDup_filter, NoDup_sorted_logger_names.
Qed.

(** ** The categories *)

Lemma dedup_fold (seen cs : list string) :
  foldl (λ seen x, if bool_decide (x ∈ seen) then seen else seen ++ [x]) seen cs =
    seen ++ new_categories seen cs.
Proof.
  revert seen. induction cs as [|c cs IH]; intros seen.
  { simpl. by rewrite app_nil_r. }
  simpl. destruct (bool_decide (c ∈ seen)); [by rewrite IH|].
  rewrite IH. by rewrite <- app_assoc.
Qed.

Lemma first_occurrences_new (cs : list string) :
  first_occurrences cs = new_categories [] cs.
Proof. unfold first_occurrences. by rewrite dedup_fold. Qed.

Lemma elem_of_new_categories (seen cs : list string) (c : string) :
  c ∈ new_categories seen cs ↔ c ∈ cs ∧ c ∉ seen.
Proof.
  revert seen. induction cs as [|x cs IH]; intros seen; simpl.
  { rewrite elem_of_nil. tauto. }
  case_bool_decide as Hx.
  - rewrite IH, elem_of_cons. split; [tauto|]. intros [[-> | Hc] Hn]; tauto.
  - rewrite !elem_of_cons, IH, elem_of_app, list_elem_of_singleton.
    destruct (decide (c = x)) as [-> | Hne]; tauto.
Qed.

Lemma NoDup_new_categories (seen cs : list string) : NoDup (new_categories seen cs).
Proof.
  revert seen. induction cs as [|x cs IH]; intros seen; simpl; [constructor|].
  case_bool_decide as Hx; [apply IH|].
  apply NoDup_cons. split; [|apply IH].
  rewrite elem_of_new_categories, elem_of_app, list_elem_of_singleton. tauto.
Qed.

Lemma categories_loop (names : list string) (cn : list string)
    (cats : list enum_item) (k : Z) :
  foldl categories_step (cn, cats, k) names =
    (cn ++ new_categories cn (category_of <$> names),
     cats ++ numbered k (new_categories cn (category_of <$> names)),
     (k + Z.of_nat (length (new_categories cn (category_of <$> names))))%Z).
Proof.
  revert cn cats k. induction names as [|n names IH]; intros cn cats k.
  { simpl. by rewrite !app_nil_r, Z.add_0_r. }
  rewrite fmap_cons.
  rewrite foldl_step.
  assert (categories_step (cn, cats, k) n =
          if bool_decide (category_of n ∈ cn) then (cn, cats, k)
          else (cn ++ [category_of n], cats ++ [(category_of n, category_of n, category_of n, k)],
                (k + 1)%Z))
    as -> by done.
  simpl new_categories.
  destruct (bool_decide (category_of n ∈ cn)); [by rewrite IH|].
  rewrite IH. rewrite <- !app_assoc. f_equal.
  rewrite length_cons, Nat2Z.inj_succ. lia.
Qed.

Lemma categories_unfold (st : State) :
  get_loggers_categories_as_property_enum st =
    ("ALL", "(no filter)", "Do not filter: show all loggers", 0%Z)
    :: numbered 1 (first_occurrences (category_of <$> sorted_logger_names st)).
Proof.
  unfold get_loggers_categories_as_property_enum.
  by rewrite categories_loop, first_occurrences_new.
Qed.

Lemma elem_of_first_occurrences (st : State) (c : string) :
  c ∈ first_occurrences (category_of <$> sorted_logger_names st) ↔
  ∃ n, is_Some (_loggers st !! n) ∧ category_of n = c.
Proof.
  rewrite first_occurrences_new, elem_of_new_categories, list_elem_of_fmap.
  split.
  - intros [(n & -> & Hn) _]. exists n. by rewrite <- elem_of_sorted_logger_names.
  - intros (n & Hn & <-). split; [|apply not_elem_of_nil].
    exists n. by rewrite elem_of_sorted_logger_names.
Qed.

(** X12: [get_loggers_categories_as_property_enum] returns the entry
    ["ALL"] followed by one entry per category, each at the place of its
    first channel in the sorted names; a category is listed exactly when
    some registered channel has it, it is listed once, and the entries
    are numbered 0, 1, 2, ... without gaps. *)
Theorem categories_spec (st : State) :
  let items := get_loggers_categories_as_property_enum st in
  let cats := first_occurrences (category_of <$> sorted_logger_names st) in
  items = ("ALL", "(no filter)", "Do not filter: show all loggers", 0%Z)
          :: numbered 1 cats ∧
  (∀ c, c ∈ cats ↔ ∃ n, is_Some (_loggers st !! n) ∧ category_of n = c) ∧
  NoDup cats ∧
  enum_numbers items = Z.of_nat <$> seq 0 (length items).
Proof.
  intros items cats. unfold items. rewrite categories_unfold. fold cats.
  split; [done|]. split; [apply elem_of_first_occurrences|]. split.
  { unfold cats. rewrite first_occurrences_new. apply NoDup_new_categories. }
  change (0%Z :: enum_numbers (numbered 1 cats)
          = Z.of_nat <$> seq 0 (S (length (numbered 1 cats)))).
  rewrite numbered_numbers, numbered_length. simpl. f_equal.
  rewrite <- fmap_S_seq, <- list_fmap_compose.
  apply list_fmap_ext. intros i x _. simpl. lia.
Qed.

(** X13: the identifiers of the categories are pairwise different exactly
    when no registered channel has the category ["ALL"] (a channel named
    ["ALL"] or ["ALL.x"]); such a channel adds a second entry ["ALL"]. *)
Theorem categories_ids_unique_iff (st : State) :
  NoDup (enum_ids (get_loggers_categories_as_property_enum st)) ↔
  ¬ ∃ n, is_Some (_loggers st !! n) ∧ category_of n = "ALL".
Proof.
  rewrite categories_unfold, enum_ids_cons, numbered_ids. simpl.
  rewrite NoDup_cons, elem_of_first_occurrences.
  split; [tauto|]. intros Hnot. split; [done|].
  rewrite first_occurrences_new. apply NoDup_new_categories.
Qed.

(** ** Names and their categories *)

Lemma split_dot_cons (c : ascii) (s : string) :
  split_dot (String c s) =
    if Ascii.eqb c "." then Some (EmptyString, s)
    else prod_map (String c) id <$> split_dot s.
Proof. simpl. destruct (Ascii.eqb c "."); [done|]. by destruct (split_dot s) as [[a b]|]. Qed.

(** X14: [split_dot] cuts a name at its first dot: it finds no dot exactly
    when the name has none, and it returns [(cat, suffix)] exactly when the
    name is [cat + "." + suffix] and [cat] has no dot. *)
Theorem split_dot_spec (s : string) :
  (split_dot s = None ↔ "."%char ∉ chars s) ∧
  (∀ cat suffix, split_dot s = Some (cat, suffix) ↔
     s = cat +:+ "." +:+ suffix ∧ "."%char ∉ chars cat).
Proof.
  induction s as [|c s [IHnone IHsome]].
  { split; [split; [intros _; apply not_elem_of_nil | done]|].
    intros cat suffix. split; [done|]. intros [Heq _]. by destruct cat. }
  rewrite split_dot_cons. destruct (Ascii.eqb_spec c ".") as [-> | Hc].
  - split.
    + split; [done|]. intros Hnot. destruct Hnot. simpl. apply list_elem_of_here.
    + intros cat suffix. split.
      * intros [= <- <-]. split; [done|]. apply not_elem_of_nil.
      * intros [Heq Hnot]. destruct cat as [|d cat].
        -- change (String "." s = String "." suffix) in Heq. by injection Heq as ->.
        -- change (String "." s = String d (cat +:+ "." +:+ suffix)) in Heq.
           injection Heq as <- _. destruct Hnot. simpl. apply list_elem_of_here.
  - split.
    + simpl chars. rewrite not_elem_of_cons, <- IHnone.
      destruct (split_dot s) as [[a b]|]; simpl.
      * split; [done|]. by intros [_ ?].
      * split; [|done]. intros _. split; [congruence | done].
    + intros cat suffix. split.
      * destruct (split_dot s) as [[a b]|] eqn:Hs; simpl; [|done].
        intros [= <- <-]. destruct (proj1 (IHsome a b) eq_refl) as [-> Hnot].
        split; [done|]. simpl. rewrite not_elem_of_cons. split; [congruence | done].
      * intros [Heq Hnot]. destruct cat as [|d cat].
        -- change (String c s = String "." suffix) in Heq. injection Heq as -> _. done.
        -- change (String c s = String d (cat +:+ "." +:+ suffix)) in Heq.
           injection Heq as <- ->. simpl in Hnot. apply not_elem_of_cons in Hnot as [_ Hnot].
           by rewrite (proj2 (IHsome cat suffix) (conj eq_refl Hnot)).
Qed.

Lemma category_of_cons (c : ascii) (s : string) :
  category_of (String c s) =
    if Ascii.eqb c "." then EmptyString else String c (category_of s).
Proof.
  unfold category_of. rewrite split_dot_cons.
  destruct (Ascii.eqb c "."); [done|]. by destruct (split_dot s) as [[a b]|].
Qed.

Lemma category_of_prefix (n : string) : String.prefix (category_of n) n = true.
Proof.
  induction n as [|c n IH]; [done|].
  rewrite category_of_cons. destruct (Ascii.eqb c "."); [done|].
  simpl. by destruct (ascii_dec c c).
Qed.

(** X15: choosing the category of a registered channel as the filter of
    the list always shows that channel. *)
Theorem category_filter_lists_channel (n : string) (st : State) :
  is_Some (_loggers st !! n) →
  n ∈ tail (enum_ids (get_loggers_list_as_property_enum (category_of n) st)).
Proof.
  intros Hreg. rewrite loggers_list_unfold, enum_ids_cons, numbered_ids. simpl tail.
  rewrite list_elem_of_filter, elem_of_sorted_logger_names.
  split; [|done]. apply Is_true_true. unfold passes_filter, effective_filter.
  destruct (bool_decide (category_of n = "ALL")); [done|].
  rewrite category_of_prefix. apply orb_true_r.
Qed.

End EnumProperties.

Section RegistryProperties.

Context {host : Host}.

(** ** The configuration file *)

Lemma persisted_run_op (o : op) (st : State) :
  config st = Some (_level_overrides st) →
  config (run_op o st) = Some (_level_overrides (run_op o st)).
Proof.
  intros Hcfg. destruct o as [n | lvl | n lvl |]; simpl; try done.
  - destruct (get_or_create_settings st n) as (_ & -> & ->). done.
  - by destruct (set_level_override_settings n lvl st) as (_ & _ & ->).
Qed.

(** X16: every change of the settings is written out at once: after the
    construction of the registry and any sequence of operations the
    configuration file holds exactly the overrides table. *)
Theorem config_mirrors_overrides (fs : gmap string string)
    (cfg : option (gmap string Z)) (ops : list op) :
  ∃ st0, _LOGSERVICE fs cfg = Ok st0 ∧
         config (run_ops ops st0) = Some (_level_overrides (run_ops ops st0)).
Proof.
  destruct (boot_consistent fs cfg) as (st0 & Hboot & (_ & Hcfg & _) & _).
  exists st0. split; [done|]. clear Hboot. revert st0 Hcfg.
  induction ops as [|o ops IH]; intros st0 Hcfg; [done|].
  rewrite run_ops_cons. by apply IH, persisted_run_op.
Qed.

(** X17: the thresholds are a function of the settings: in every state the
    registry reaches without an override for a channel named ["default"],
    the default threshold is the entry ["default"] of the table (INFO when
    the loaded file had none), and every other channel is flagged exactly
    when the table has an entry for it and has that entry as threshold,
    the default threshold otherwise. *)
Theorem thresholds_follow_settings (fs : gmap string string)
    (cfg : option (gmap string Z)) (ops : list op) :
  Forall no_default_override ops →
  ∃ st0, _LOGSERVICE fs cfg = Ok st0 ∧
    let st := run_ops ops st0 in
    _default_log_level st = default INFO (_level_overrides st !! "default") ∧
    ∀ n lg, n ≠ "default" → channel st n = Some lg →
      (level_is_overridden lg = true ↔ is_Some (_level_overrides st !! n)) ∧
      level lg = default (_default_log_level st) (_level_overrides st !! n).
Proof.
  intros Hok. destruct (boot_consistent fs cfg) as (st0 & Hboot & Hcons & _).
  exists st0. split; [done|]. intros st.
  destruct (consistent_run_ops ops st0 Hok Hcons) as (_ & _ & Hdef & Hlev).
  split; [done|]. intros n lg Hn Hch. destruct (Hlev n lg Hn Hch) as [Hl Hf]. done.
Qed.

(** ** The log files *)

Lemma files_get_or_create (n : string) (st : State) :
  files (get_or_create_log_channel n st).2 =
    match _loggers st !! n with
    | Some _ => files st
    | None => <[logger_path n := EmptyString]> (files st)
    end.
Proof.
  destruct (_loggers st !! n) as [l|] eqn:Hn.
  - by rewrite (get_or_create_existing st n l).
  - by rewrite get_or_create_new.
Qed.

Lemma files_run_op (o : op) (st : State) :
  files (run_op o st) =
    match o with
    | GetOrCreate n | SetOverride n _ => files (get_or_create_log_channel n st).2
    | _ => files st
    end.
Proof.
  destruct o as [n | lvl | n lvl |]; try done. simpl. unfold set_level_override.
  by destruct (get_or_create_log_channel n st).
Qed.

Lemma files_kept_run_op (o : op) (st : State) (n : string) :
  is_Some (_loggers st !! n) →
  files (run_op o st) !! logger_path n = files st !! logger_path n ∧
  files (run_op o st) !! _COMBINED = files st !! _COMBINED.
Proof.
  intros [l Hn]. rewrite files_run_op.
  assert (∀ m, files (get_or_create_log_channel m st).2 !! logger_path n
               = files st !! logger_path n ∧
               files (get_or_create_log_channel m st).2 !! _COMBINED
               = files st !! _COMBINED) as Hcreate.
  { intros m. rewrite files_get_or_create.
    destruct (_loggers st !! m) as [l'|] eqn:Hm; [done|].
    rewrite !lookup_insert_ne; [done | apply logger_path_ne_COMBINED |].
    intros Heq. apply logger_path_inj in Heq. congruence. }
  destruct o as [m | lvl | m lvl |]; try done; apply Hcreate.
Qed.

(** X18: the file of a channel is emptied when the channel is created and
    by no registry operation afterwards: any sequence of operations leaves
    the file of every channel that exists already, and the combined file,
    as they are. *)
Theorem registry_ops_keep_log_files (n : string) (ops : list op) (st : State) :
  (_loggers st !! n = None →
     files (get_or_create_log_channel n st).2 !! logger_path n = Some EmptyString) ∧
  (is_Some (_loggers st !! n) →
     files (run_ops ops st) !! logger_path n = files st !! logger_path n ∧
     files (run_ops ops st) !! _COMBINED = files st !! _COMBINED).
Proof.
  split.
  { intros Hn. rewrite files_get_or_create, Hn. apply lookup_insert_eq. }
  revert st. induction ops as [|o ops IH]; intros st Hn; [done|].
  rewrite run_ops_cons.
  destruct (files_kept_run_op o st n Hn) as [Hfile Hcombined].
  destruct (IH (run_op o st)) as [Hfile' Hcombined'].
  { destruct Hn as [l Hl]. exists l. by apply run_op_keeps. }
  split; congruence.
Qed.

(** X19: logging on one channel touches neither the file of a channel with
    another name nor the registry: whatever the severity and the outcome,
    the other file, the heap, the dict of channels, the settings and the
    configuration file are as before. *)
Theorem logging_is_isolated (lg1 lg2 : Logger) (lvl : Z) (message : string)
    (extra_object : pyval) (st st' : State) :
  Logger_wf lg1 → Logger_wf lg2 → name lg1 ≠ name lg2 →
  _log_message lg1 lvl message extra_object st = Ok st' →
  files st' !! path lg2 = files st !! path lg2 ∧
  heap st' = heap st ∧ _loggers st' = _loggers st ∧
  _default_log_level st' = _default_log_level st ∧
  _level_overrides st' = _level_overrides st ∧ config st' = config st.
Proof.
  intros Hwf1 Hwf2 Hne. unfold _log_message.
  destruct (lvl <=? level lg1)%Z; [|by intros [= <-]].
  destruct (py_getitem LOGLEVELS lvl) as [label|]; [|done].
  intros [= <-]. simpl. split; [|done]. unfold append_file.
  rewrite !lookup_insert_ne; [done | |].
  all: rewrite ?Hwf1, ?Hwf2; intros Heq.
  all: first [ by apply logger_path_inj in Heq
             | symmetry in Heq; by apply logger_path_ne_COMBINED in Heq ].
Qed.

(** ** Reset and the reserved name *)

(** X20: [reset_log_levels] makes every channel follow the default again:
    whatever overrides there were, after a reset the next
    [set_default_log_level] reaches every existing channel, and the table
    holds nothing but the new default. *)
Theorem reset_forgets_overrides (n : string) (lg : Logger) (L2 : Z) (st : State) :
  channel st n = Some lg →
  let st' := set_default_log_level L2 (reset_log_levels st) in
  (∃ lg', channel st' n = Some lg' ∧ level lg' = L2 ∧
          level_is_overridden lg' = false) ∧
  _level_overrides st' = {["default" := L2]} ∧
  config st' = Some {["default" := L2]}.
Proof.
  intros Hn st'.
  assert (_level_overrides st' = {["default" := L2]}) as Hov.
  { unfold st'. simpl. by rewrite insert_insert_eq. }
  split; [|split; [done|]].
  - exists (apply_default L2 (reset_logger lg)). unfold st'.
    by rewrite channel_set_default, channel_reset, Hn.
  - destruct (set_default_settings L2 (reset_log_levels st)) as (_ & _ & Hcfg).
    fold st' in Hcfg. by rewrite Hcfg, Hov.
Qed.

(** X21: a channel named ["default"] takes the table's entry for the
    default threshold as its own override: created while the table has
    the key ["default"], it gets that level, is flagged as overridden, and
    no later [set_default_log_level] changes it. *)
Theorem default_named_channel_is_pinned (d : Z) (st : State) :
  registry_wf st → _loggers st !! "default" = None →
  _level_overrides st !! "default" = Some d →
  let st1 := (get_or_create_log_channel "default" st).2 in
  ∃ lg, channel st1 "default" = Some lg ∧ level lg = d ∧
        level_is_overridden lg = true ∧
        ∀ L2, channel (set_default_log_level L2 st1) "default" = Some lg ∧
              _default_log_level (set_default_log_level L2 st1) = L2.
Proof.
  intros Hwf Hnew Hd st1. exists (fresh_logger st "default").
  assert (channel st1 "default" = Some (fresh_logger st "default")) as Hch.
  { unfold st1. rewrite channel_get_or_create by done. rewrite decide_True by done.
    by rewrite (channel_None st "default"). }
  unfold fresh_logger in *. rewrite Hd in *.
  split; [done|]. split; [done|]. split; [done|].
  intros L2. split; [|done]. by rewrite channel_set_default, Hch.
Qed.

End RegistryProperties.

Section CallProperties.

Context {host : Host}.

(** ** Calls that return and calls that raise *)

(** A call returns when the channel exists already or its file can be
    opened, and then it returns what [get_or_create_log_channel]
    computes. *)
Lemma call_get_or_create_returns (nm : string) (st : State) :
  is_Some (_loggers st !! nm) ∨ log_file_opens (logger_file nm) = true →
  call_get_or_create_log_channel nm st = Returns (get_or_create_log_channel nm st).
Proof.
  unfold call_get_or_create_log_channel, get_or_create_log_channel, call_Logger.
  destruct (_loggers st !! nm) as [l|]; [done|].
  intros [[l Hl] | Hopen]; [done|]. by rewrite Hopen.
Qed.

Lemma call_get_or_create_raises (nm : string) (st : State) :
  _loggers st !! nm = None → log_file_opens (logger_file nm) = false →
  call_get_or_create_log_channel nm st = Throws (OpenError (logger_path nm)).
Proof.
  unfold call_get_or_create_log_channel, call_Logger. by intros -> ->.
Qed.

Lemma call_get_or_create_inv (nm : string) (st : State) (l : loc) (st' : State) :
  call_get_or_create_log_channel nm st = Returns (l, st') →
  get_or_create_log_channel nm st = (l, st').
Proof.
  intros Hcall.
  destruct (_loggers st !! nm) as [l0|] eqn:Hnm.
  - rewrite call_get_or_create_returns in Hcall by (left; by eexists). congruence.
  - destruct (log_file_opens (logger_file nm)) eqn:Hopen.
    + rewrite call_get_or_create_returns in Hcall by by right. congruence.
    + by rewrite call_get_or_create_raises in Hcall.
Qed.

Lemma call_set_level_override_cases (nm : string) (lvl : Z) (st : State) :
  call_set_level_override nm lvl st = Returns (set_level_override nm lvl st) ∨
  ∃ e, call_set_level_override nm lvl st = Throws e.
Proof.
  unfold call_set_level_override, set_level_override.
  destruct (call_get_or_create_log_channel nm st) as [[l st1]|e] eqn:Hcall.
  - left. by rewrite (call_get_or_create_inv nm st l st1).
  - right. by exists e.
Qed.

(** Whatever a call does, it leaves the state its total counterpart
    computes, or the state it found. *)
Lemma after_op_cases (o : op) (st : State) :
  after_op o st = run_op o st ∨ after_op o st = st.
Proof.
  unfold after_op. destruct o as [n | lvl | n lvl |]; simpl; try by left.
  - destruct (call_get_or_create_log_channel n st) as [[l st1]|e] eqn:Hcall;
      [left | by right].
    by rewrite (call_get_or_create_inv n st l st1).
  - destruct (call_set_level_override_cases n lvl st) as [-> | [e ->]];
      [by left | by right].
Qed.

Lemma after_ops_keeps (ops : list op) (st : State) (m : string) (l : loc) :
  _loggers st !! m = Some l → _loggers (after_ops ops st) !! m = Some l.
Proof.
  revert st. induction ops as [|o ops IH]; intros st Hm; [done|].
  change (_loggers (after_ops ops (after_op o st)) !! m = Some l). apply IH.
  destruct (after_op_cases o st) as [-> | ->]; [by apply run_op_keeps | done].
Qed.

Lemma registry_wf_set_level_at (l : loc) (lvl : Z) (st : State) :
  registry_wf st → registry_wf (set_level_at l lvl st).
Proof. apply registry_wf_alter, set_level_keeps_identity. Qed.

Lemma channel_set_level_at (n m : string) (l : loc) (lvl : Z) (st : State) :
  registry_wf st → _loggers st !! n = Some l →
  channel (set_level_at l lvl st) m =
    if decide (m = n) then set_level lvl <$> channel st n else channel st m.
Proof. intros Hwf Hn. by apply channel_alter. Qed.

(** ** Identity of channels *)

(** C4 (amended): for names whose file the host opens, asking twice for
    the same name returns the same object and changes nothing the second
    time, also after other registry calls, returned or raised; two
    different names return two different objects with different file
    paths, registered under their names, whose thresholds are set
    independently: each keeps the level it was given, and setting one of
    them leaves the level of the other as it was. *)
Theorem get_or_create_identity_stable (n1 n2 : string) (st : State) :
  registry_wf st →
  log_file_opens (logger_file n1) = true → log_file_opens (logger_file n2) = true →
  ∃ l1 st1 l2 st2,
    call_get_or_create_log_channel n1 st = Returns (l1, st1) ∧
    call_get_or_create_log_channel n1 st1 = Returns (l1, st1) ∧
    (∀ ops, call_get_or_create_log_channel n1 (after_ops ops st1)
            = Returns (l1, after_ops ops st1)) ∧
    call_get_or_create_log_channel n2 st1 = Returns (l2, st2) ∧
    (n1 ≠ n2 →
       l1 ≠ l2 ∧
       (∃ lg1 lg2,
          channel st2 n1 = Some lg1 ∧ heap st2 !! l1 = Some lg1 ∧
          channel st2 n2 = Some lg2 ∧ heap st2 !! l2 = Some lg2 ∧
          name lg1 = n1 ∧ name lg2 = n2 ∧ path lg1 ≠ path lg2) ∧
       (∀ lvl1 lvl2,
          level <$> channel (set_level_at l2 lvl2 (set_level_at l1 lvl1 st2)) n1
            = Some lvl1 ∧
          level <$> channel (set_level_at l2 lvl2 (set_level_at l1 lvl1 st2)) n2
            = Some lvl2) ∧
       (∀ lvl, level <$> channel (set_level_at l1 lvl st2) n2
               = level <$> channel st2 n2)).
Proof.
  intros Hwf Hopen1 Hopen2.
  set (l1 := (get_or_create_log_channel n1 st).1).
  set (st1 := (get_or_create_log_channel n1 st).2).
  set (l2 := (get_or_create_log_channel n2 st1).1).
  set (st2 := (get_or_create_log_channel n2 st1).2).
  exists l1, st1, l2, st2.
  pose proof (get_or_create_registered st n1) as Hreg1. fold l1 st1 in Hreg1.
  assert (registry_wf st1) as Hwf1 by by apply registry_wf_get_or_create.
  assert (registry_wf st2) as Hwf2 by by apply registry_wf_get_or_create.
  split.
  { rewrite call_get_or_create_returns by by right.
    by destruct (get_or_create_log_channel n1 st). }
  split.
  { rewrite call_get_or_create_returns by by right.
    by rewrite (get_or_create_existing st1 n1 l1). }
  split.
  { intros ops. pose proof (after_ops_keeps ops st1 n1 l1 Hreg1) as Hkept.
    rewrite call_get_or_create_returns by (left; by eexists).
    by rewrite (get_or_create_existing _ n1 l1). }
  split.
  { rewrite call_get_or_create_returns by by right.
    by destruct (get_or_create_log_channel n2 st1). }
  intros Hne.
  pose proof (get_or_create_registered st1 n2) as Hreg2. fold l2 st2 in Hreg2.
  pose proof (get_or_create_keeps st1 n2 n1 l1 Hreg1) as Hreg1'. fold st2 in Hreg1'.
  destruct (registry_wf_channel st2 n1 l1 Hwf2 Hreg1') as (lg1 & Hch1 & Hl1 & Hname1 & Hpath1).
  destruct (registry_wf_channel st2 n2 l2 Hwf2 Hreg2) as (lg2 & Hch2 & Hl2 & Hname2 & Hpath2).
  assert (l1 ≠ l2) as Hl.
  { intros Heq. apply Hne. apply (registry_wf_inj st2 n1 n2 l1); [done..|].
    by rewrite Heq. }
  split; [done|]. split; [|split].
  - exists lg1, lg2. repeat split; try done.
    rewrite Hpath1, Hpath2, Hname1, Hname2. intros Heq.
    by apply logger_path_inj in Heq.
  - intros lvl1 lvl2.
    pose proof (registry_wf_set_level_at l1 lvl1 st2 Hwf2) as Hwf3.
    rewrite !(channel_set_level_at n2 _ l2 lvl2 (set_level_at l1 lvl1 st2)) by done.
    rewrite decide_False by done. rewrite decide_True by done.
    rewrite !(channel_set_level_at n1 _ l1 lvl1 st2) by done.
    rewrite decide_True by done. rewrite decide_False by done.
    by rewrite Hch1, Hch2.
  - intros lvl. rewrite (channel_set_level_at n1 n2 l1 lvl st2) by done.
    by rewrite decide_False.
Qed.

(** ** The public entry point *)

(** C10: [LogService.get_logger] looks the channel up under [str(name)]:
    the call with a value and the call with its string form have the same
    outcome; it returns whenever the file of that name can be opened;
    and the object it returns is the one registered under [str(name)],
    carrying this name and the path of its file, which every later or
    other call with a value of the same string form returns as well,
    changing nothing. *)
Theorem get_logger_coerces_name (v : pyval) (st : State) :
  registry_wf st →
  call_get_logger v st = call_get_logger (PyStr (py_str v)) st ∧
  (log_file_opens (logger_file (py_str v)) = true →
     ∃ l st', call_get_logger v st = Returns (l, st')) ∧
  (∀ l st', call_get_logger v st = Returns (l, st') →
     _loggers st' !! py_str v = Some l ∧
     (∃ lg, heap st' !! l = Some lg ∧ channel st' (py_str v) = Some lg ∧
            name lg = py_str v ∧ path lg = logger_path (py_str v)) ∧
     (∀ v', py_str v' = py_str v →
        call_get_logger v' st = Returns (l, st') ∧
        call_get_logger v' st' = Returns (l, st'))).
Proof.
  intros Hwf. split; [done|]. split.
  { intros Hopen. unfold call_get_logger.
    rewrite call_get_or_create_returns by by right.
    destruct (get_or_create_log_channel (py_str v) st) as [l st']. by exists l, st'. }
  intros l st' Hcall. unfold call_get_logger in Hcall.
  pose proof (call_get_or_create_inv _ _ _ _ Hcall) as Hgoc.
  pose proof (get_or_create_registered st (py_str v)) as Hreg.
  pose proof (registry_wf_get_or_create st (py_str v) Hwf) as Hwf'.
  rewrite Hgoc in Hreg, Hwf'. simpl in Hreg, Hwf'.
  split; [done|]. split.
  - destruct (registry_wf_channel st' (py_str v) l Hwf' Hreg)
      as (lg & Hch & Hl & Hname & Hpath).
    exists lg. unfold Logger_wf in Hpath. rewrite Hname in Hpath. done.
  - intros v' Hstr. unfold call_get_logger. rewrite Hstr. split; [done|].
    rewrite call_get_or_create_returns by (left; by eexists).
    by rewrite (get_or_create_existing st' (py_str v) l).
Qed.

End CallProperties.

(** ** Worked instances on the concrete host *)

#[local] Existing Instance unix_host.

Lemma host_boot_loggers : _loggers host_boot = ∅.
Proof. reflexivity. Qed.

Lemma host_boot_wf : registry_wf host_boot.
Proof. intros n l Hn. rewrite host_boot_loggers in Hn. by rewrite lookup_empty in Hn. Qed.

Lemma host_run_wf (ops : list op) : registry_wf (host_run ops).
Proof. apply registry_wf_run_ops, host_boot_wf. Qed.

Lemma host_boot_flagged : overrides_flagged host_boot.
Proof.
  intros n lg _ _ Hch. unfold channel in Hch. rewrite host_boot_loggers in Hch.
  by rewrite lookup_empty in Hch.
Qed.

Lemma host_run_flagged (ops : list op) : overrides_flagged (host_run ops).
Proof.
  unfold host_run. generalize host_boot_wf host_boot_flagged.
  generalize host_boot. induction ops as [|o ops IH]; intros st Hwf Hinv; [done|].
  apply IH; [by apply registry_wf_run_op | by apply overrides_flagged_run_op].
Qed.

Lemma log_message_recorded_iff_witness :
  Logger_wf ui_logger ∧ (0 ≤ WARN ≤ 6)%Z ∧
  ∃ st', _log_message ui_logger WARN "x" PyNone host_state = Ok st' ∧
         (recorded ui_logger WARN "x" PyNone host_state st'
          ↔ (WARN ≤ level ui_logger)%Z) ∧
         ((level ui_logger < WARN)%Z → st' = host_state).
Proof.
  split; [reflexivity|]. split; [unfold WARN; lia|].
  apply (log_message_recorded_iff ui_logger WARN "x" PyNone host_state);
    [reflexivity | unfold WARN; lia].
Defined.

Lemma dump_emits_iff_witness :
  Logger_wf net_logger ∧
  ∃ st', dump net_logger "state" (PyInt 42) host_state = Ok st' ∧
         (recorded net_logger DUMP "state"
            (PyStr (serialized_object (PyInt 42))) host_state st'
          ↔ (TRACE < level net_logger)%Z) ∧
         ((level net_logger ≤ TRACE)%Z → st' = host_state) ∧
         ((∀ s, PyInt 42 ≠ PyStr s) →
          serialized_object (PyInt 42) = nl +:+ pformat (PyInt 42)).
Proof.
  split; [reflexivity|].
  apply (dump_emits_iff net_logger "state" (PyInt 42) host_state).
  reflexivity.
Defined.

Lemma override_survives_default_witness :
  registry_wf host_state ∧
  channel host_state "ui" = Some ui_logger ∧
  ∃ lg lg',
    channel (set_level_override "net" 5 host_state) "net" = Some lg ∧
    level lg = 5%Z ∧
    channel (set_default_log_level 1 (set_level_override "net" 5 host_state)) "ui"
      = Some lg' ∧
    level lg' = 1%Z.
Proof.
  split; [apply host_run_wf|]. split; [by vm_compute|].
  destruct (override_survives_default "net" 5 1 host_state (host_run_wf _))
    as ((lg & Hlg & Hlevel & _) & Hplain & _).
  destruct (Hplain "ui" ui_logger) as (lg' & Hlg' & Hlevel');
    [by vm_compute | reflexivity |].
  exists lg, lg'. exact (conj Hlg (conj Hlevel (conj Hlg' Hlevel'))).
Defined.

Lemma reset_restores_INFO_witness :
  channel host_state "net" = Some net_logger ∧
  ∃ lg', channel (reset_log_levels host_state) "net" = Some lg' ∧
         level lg' = INFO ∧ level_is_overridden lg' = false.
Proof.
  split; [by vm_compute|].
  destruct (reset_restores_INFO host_state) as (_ & _ & _ & _ & Hch & _).
  destruct (Hch "net" net_logger) as (lg' & Hlg' & Hlevel & Hflag & _);
    [by vm_compute|].
  exists lg'. exact (conj Hlg' (conj Hlevel Hflag)).
Defined.

Lemma overrides_flagged_preserved_witness :
  registry_wf host_state ∧ overrides_flagged host_state ∧
  registry_wf (run_op (SetDefault 1) host_state) ∧
  overrides_flagged (run_op (SetDefault 1) host_state).
Proof.
  split; [apply host_run_wf|]. split; [apply host_run_flagged|].
  apply overrides_flagged_preserved; [apply host_run_wf | apply host_run_flagged].
Defined.

Lemma reload_reproduces_thresholds_witness :
  Forall no_default_override [SetOverride "net" 5; SetDefault 1] ∧
  round_trip ∅ None [SetOverride "net" 5; SetDefault 1].
Proof.
  assert (Forall no_default_override [SetOverride "net" 5; SetDefault 1]) as Hok.
  { repeat constructor. done. }
  split; [exact Hok|].
  exact (reload_reproduces_thresholds ∅ None _ Hok).
Defined.

(** C3 as stated fails: a channel may be named like the reserved key. The
    override of channel ["default"] is stored under the key of the default
    threshold, so the first registry keeps the default 3 and the reloaded
    one starts with 5. *)
Lemma reload_default_key_collision :
  ¬ round_trip ∅ None [SetOverride "default" 5].
Proof.
  intros (st0 & Hboot & Hrest). cbv zeta in Hrest.
  destruct Hrest as (st' & Hre & Hd & _).
  vm_compute in Hboot. injection Hboot as <-.
  vm_compute in Hre. injection Hre as <-.
  vm_compute in Hd. discriminate Hd.
Qed.

Lemma categories_scenario_witness :
  dom (_loggers (host_run [GetOrCreate "z"; SetOverride "a.c" 4; GetOrCreate "a.b"]))
    = {["a.b"; "a.c"; "z"]} ∧
  enum_ids (get_loggers_categories_as_property_enum
              (host_run [GetOrCreate "z"; SetOverride "a.c" 4; GetOrCreate "a.b"]))
    = ["ALL"; "a"; "z"].
Proof.
  assert (dom (_loggers (host_run [GetOrCreate "z"; SetOverride "a.c" 4; GetOrCreate "a.b"]))
          = {["a.b"; "a.c"; "z"]}) as Hdom by by vm_compute.
  split; [exact Hdom|].
  exact (proj2 (proj2 (categories_scenario _ Hdom))).
Defined.

(** C9 as stated fails for the registry itself: after the module-level
    construction a second [_LogService()] is accepted. *)
Lemma second_registry_is_accepted :
  ¬ ∃ e, construct_twice ∅ None = Raise e.
Proof. intros [e He]. vm_compute in He. discriminate He. Qed.

Lemma net_file_opens : log_file_opens (logger_file "net") = true.
Proof. by vm_compute. Qed.

Lemma gui_file_opens : log_file_opens (logger_file "gui") = true.
Proof. by vm_compute. Qed.

Lemma net_gui_differ : "net" ≠ "gui".
Proof. discriminate. Qed.

Lemma get_or_create_identity_stable_witness :
  registry_wf host_state ∧
  log_file_opens (logger_file "net") = true ∧
  log_file_opens (logger_file "gui") = true ∧ "net" ≠ "gui" ∧
  ∃ l1 st1 l2 st2,
    call_get_or_create_log_channel "net" host_state = Returns (l1, st1) ∧
    call_get_or_create_log_channel "net" st1 = Returns (l1, st1) ∧
    call_get_or_create_log_channel "gui" st1 = Returns (l2, st2) ∧
    l1 ≠ l2 ∧
    level <$> channel (set_level_at l2 2 (set_level_at l1 6 st2)) "net" = Some 6%Z ∧
    level <$> channel (set_level_at l2 2 (set_level_at l1 6 st2)) "gui" = Some 2%Z.
Proof.
  split; [apply host_run_wf|]. split; [exact net_file_opens|].
  split; [exact gui_file_opens|]. split; [exact net_gui_differ|].
  destruct (get_or_create_identity_stable "net" "gui" host_state (host_run_wf _)
              net_file_opens gui_file_opens)
    as (l1 & st1 & l2 & st2 & Hfirst & Hsecond & _ & Hother & Hdistinct).
  destruct (Hdistinct net_gui_differ) as (Hl & _ & Hlevels & _).
  destruct (Hlevels 6%Z 2%Z) as [Hnet Hgui].
  exists l1, st1, l2, st2.
  exact (conj Hfirst (conj Hsecond (conj Hother (conj Hl (conj Hnet Hgui))))).
Defined.

(** C4 as stated fails: not every name has an instance. For a name with a
    path separator the file of the channel cannot be opened, the call
    raises the error of [open] and leaves the registry as it was. *)
Lemma channel_file_cannot_be_opened :
  ¬ identity_stable "a/b" host_boot ∧
  call_get_or_create_log_channel "a/b" host_boot
    = Throws (OpenError (logger_path "a/b")) ∧
  after_op (GetOrCreate "a/b") host_boot = host_boot.
Proof.
  assert (call_get_or_create_log_channel "a/b" host_boot
          = Throws (OpenError (logger_path "a/b"))) as Hraise.
  { apply call_get_or_create_raises; [|by vm_compute].
    rewrite host_boot_loggers. apply lookup_empty. }
  split; [|split; [exact Hraise|]].
  - intros (l & st1 & Hcall & _). rewrite Hraise in Hcall. discriminate Hcall.
  - unfold after_op, call_op. rewrite Hraise. reflexivity.
Qed.

Lemma one_file_opens : log_file_opens (logger_file (py_str (PyInt 1))) = true.
Proof. by vm_compute. Qed.

Lemma get_logger_coerces_name_witness :
  registry_wf host_state ∧
  log_file_opens (logger_file (py_str (PyInt 1))) = true ∧
  py_str (PyStr "1") = py_str (PyInt 1) ∧
  ∃ l st' lg,
    call_get_logger (PyInt 1) host_state = Returns (l, st') ∧
    heap st' !! l = Some lg ∧ name lg = "1" ∧
    call_get_logger (PyStr "1") st' = Returns (l, st').
Proof.
  split; [apply host_run_wf|]. split; [exact one_file_opens|].
  split; [reflexivity|].
  destruct (get_logger_coerces_name (PyInt 1) host_state (host_run_wf _))
    as (_ & Hreturns & Hinstance).
  destruct (Hreturns one_file_opens) as (l & st' & Hcall).
  destruct (Hinstance l st' Hcall) as (_ & (lg & Hl & _ & Hname & _) & Hsame).
  destruct (Hsame (PyStr "1") eq_refl) as [_ Hagain].
  exists l, st', lg. exact (conj Hcall (conj Hl (conj Hname Hagain))).
Defined.

(** ** Worked instances of the further properties *)

Lemma log_message_raises_iff_witness :
  ((7 ≤ level loud_logger)%Z ∧ (7 < -7 ∨ 6 < 7)%Z) ∧
  _log_message loud_logger 7 "x" PyNone host_state = Raise IndexError.
Proof.
  assert ((7 ≤ level loud_logger)%Z ∧ (7 < -7 ∨ 6 < 7)%Z) as Hout by (simpl; lia).
  split; [exact Hout|].
  exact (proj2 (proj1 (log_message_raises_iff loud_logger 7 "x" PyNone host_state)) Hout).
Defined.

Lemma silent_iff_negative_threshold_witness :
  (level silent_logger < 0)%Z ∧
  _log_message silent_logger CRASH "x" PyNone host_state = Ok host_state.
Proof.
  assert (level silent_logger < 0)%Z as Hneg by (simpl; lia).
  split; [exact Hneg|].
  apply (proj2 (silent_iff_negative_threshold silent_logger host_state) Hneg).
  unfold CRASH. lia.
Defined.

Lemma debug_enabled_iff_debug_recorded_witness :
  Logger_wf net_logger ∧ debug_enabled net_logger = true ∧
  ∃ st', debug net_logger "m" PyNone host_state = Ok st' ∧
         recorded net_logger DEBUG "m" PyNone host_state st'.
Proof.
  split; [reflexivity|]. split; [reflexivity|].
  exact (proj1 (debug_enabled_iff_debug_recorded net_logger "m" PyNone host_state
                  eq_refl) eq_refl).
Defined.

Lemma ui_frame_name : f_globals ui_frame !! "__name__" = Some (PyStr "mpfb.ui").
Proof. by vm_compute. Qed.

Lemma ui_frame_file : f_globals ui_frame !! "__file__" = Some (PyStr "/addons/mpfb/ui.py").
Proof. by vm_compute. Qed.

Lemma enter_behaviour_witness :
  Logger_wf net_logger ∧ (TRACE ≤ level net_logger)%Z ∧
  ∃ st', enter net_logger ui_frame host_state = Returns st' ∧
         recorded net_logger TRACE "Now entering mpfb.ui.draw():12" PyNone host_state st'.
Proof.
  assert (TRACE ≤ level net_logger)%Z as Hlevel by (unfold TRACE; simpl; lia).
  split; [reflexivity|]. split; [exact Hlevel|].
  pose proof (proj2 (enter_behaviour net_logger ui_frame host_state eq_refl) Hlevel) as H.
  rewrite ui_frame_name, ui_frame_file in H. exact H.
Defined.

Lemma host_state_gui_new : _loggers host_state !! "gui" = None.
Proof. by vm_compute. Qed.

Lemma timer_origin_witness :
  registry_wf host_state ∧ _loggers host_state !! "gui" = None ∧
  ∃ lg, channel (get_or_create_log_channel "gui" host_state).2 "gui" = Some lg ∧
        get_current_time lg 1700000000500 = 500%Z.
Proof.
  split; [apply host_run_wf|]. split; [exact host_state_gui_new|].
  destruct (timer_origin "gui" host_state (host_run_wf _) host_state_gui_new)
    as (lg & Hch & Hnow & _).
  exists lg. split; [exact Hch|]. etrans; [apply Hnow | reflexivity].
Defined.

Lemma time_records_elapsed_witness :
  Logger_wf net_logger ∧ (DEBUG ≤ level net_logger)%Z ∧
  ∃ st', time net_logger 1700000000500 "took" host_state = Ok st' ∧
         recorded net_logger DEBUG "took"
           (PyInt (get_current_time net_logger 1700000000500)) host_state st'.
Proof.
  assert (DEBUG ≤ level net_logger)%Z as Hlevel by (unfold DEBUG; simpl; lia).
  split; [reflexivity|]. split; [exact Hlevel|].
  exact (proj1 (proj2 (time_records_elapsed net_logger 1700000000500 "took" host_state
                         eq_refl)) Hlevel).
Defined.

Lemma WARN_label : "WARN " ∈ LOGLEVELS.
Proof. do 2 apply list_elem_of_further. apply list_elem_of_here. Qed.

Lemma long_line_alignment_witness :
  "WARN " ∈ LOGLEVELS ∧ py_len (name ui_logger) ≤ 39 ∧
  ∃ prefix,
    long_line ui_logger "WARN " "x" PyNone = prefix +:+ "x" +:+ format_extra PyNone ∧
    py_len prefix = 50.
Proof.
  assert (py_len (name ui_logger) ≤ 39) as Hshort by (vm_compute; lia).
  split; [exact WARN_label|]. split; [exact Hshort|].
  destruct (long_line_alignment ui_logger "WARN " "x" PyNone WARN_label)
    as (prefix & Hline & _ & Hlen).
  exists prefix. exact (conj Hline (Hlen Hshort)).
Defined.

Lemma log_crash_logs_at_ERROR_witness :
  Logger_wf net_logger ∧ (ERROR ≤ level net_logger)%Z ∧
  ∃ st1, log_crash net_logger None ["  File a.py, line 1"] (PyObj "boom") host_state
         = Ok st1.
Proof.
  assert (ERROR ≤ level net_logger)%Z as Hlevel by (unfold ERROR; simpl; lia).
  split; [reflexivity|]. split; [exact Hlevel|].
  destruct (proj1 (log_crash_logs_at_ERROR net_logger None ["  File a.py, line 1"]
                     (PyObj "boom") host_state eq_refl) Hlevel) as (st1 & _ & Hrun).
  exists st1. exact Hrun.
Defined.

Lemma host_state_default_registered : is_Some (_loggers host_state_default !! "default").
Proof. eexists. by vm_compute. Qed.

Lemma loggers_list_ids_unique_iff_witness :
  (is_Some (_loggers host_state_default !! "default") ∧
   passes_filter (effective_filter "ALL") "default" = true) ∧
  ¬ NoDup (enum_ids (get_loggers_list_as_property_enum "ALL" host_state_default)).
Proof.
  assert (is_Some (_loggers host_state_default !! "default") ∧
          passes_filter (effective_filter "ALL") "default" = true) as Hdup.
  { split; [exact host_state_default_registered | reflexivity]. }
  split; [exact Hdup|].
  intros Hnodup.
  exact (proj1 (loggers_list_ids_unique_iff "ALL" host_state_default) Hnodup Hdup).
Defined.

Lemma host_state_net_registered : is_Some (_loggers host_state !! "net").
Proof. eexists. by vm_compute. Qed.

Lemma category_filter_lists_channel_witness :
  is_Some (_loggers host_state !! "net") ∧
  "net" ∈ tail (enum_ids (get_loggers_list_as_property_enum (category_of "net") host_state)).
Proof.
  split; [exact host_state_net_registered|].
  exact (category_filter_lists_channel "net" host_state host_state_net_registered).
Defined.

Lemma thresholds_follow_settings_witness :
  Forall no_default_override [SetOverride "net" 5; SetDefault 1; GetOrCreate "ui"] ∧
  ∃ st0, _LOGSERVICE ∅ None = Ok st0 ∧
    _default_log_level (run_ops [SetOverride "net" 5; SetDefault 1; GetOrCreate "ui"] st0)
    = default INFO
        (_level_overrides (run_ops [SetOverride "net" 5; SetDefault 1; GetOrCreate "ui"] st0)
           !! "default").
Proof.
  assert (Forall no_default_override
            [SetOverride "net" 5; SetDefault 1; GetOrCreate "ui"]) as Hok.
  { repeat constructor. done. }
  split; [exact Hok|].
  destruct (thresholds_follow_settings ∅ None _ Hok) as (st0 & Hboot & Hdef & _).
  exists st0. exact (conj Hboot Hdef).
Defined.

Lemma registry_ops_keep_log_files_witness :
  is_Some (_loggers host_state !! "net") ∧
  files (run_ops [GetOrCreate "gui"; ResetAll; SetOverride "net" 2] host_state)
    !! logger_path "net" = files host_state !! logger_path "net".
Proof.
  split; [exact host_state_net_registered|].
  exact (proj1 (proj2 (registry_ops_keep_log_files "net"
                         [GetOrCreate "gui"; ResetAll; SetOverride "net" 2] host_state)
                  host_state_net_registered)).
Defined.

Lemma ui_net_names_differ : name ui_logger ≠ name net_logger.
Proof. discriminate. Qed.

Lemma logging_is_isolated_witness :
  Logger_wf ui_logger ∧ Logger_wf net_logger ∧ name ui_logger ≠ name net_logger ∧
  ∃ st', _log_message ui_logger WARN "x" PyNone host_state = Ok st' ∧
         files st' !! path net_logger = files host_state !! path net_logger.
Proof.
  split; [reflexivity|]. split; [reflexivity|]. split; [exact ui_net_names_differ|].
  destruct (log_message_accepted ui_logger WARN "x" PyNone host_state)
    as (st' & Hrun & _); [reflexivity | unfold WARN; lia | unfold WARN; simpl; lia |].
  exists st'. split; [exact Hrun|].
  exact (proj1 (logging_is_isolated ui_logger net_logger WARN "x" PyNone host_state st'
                  eq_refl eq_refl ui_net_names_differ Hrun)).
Defined.

Lemma host_state_net_channel : channel host_state "net" = Some net_logger.
Proof. by vm_compute. Qed.

Lemma reset_forgets_overrides_witness :
  channel host_state "net" = Some net_logger ∧
  ∃ lg', channel (set_default_log_level 1 (reset_log_levels host_state)) "net" = Some lg' ∧
         level lg' = 1%Z ∧ level_is_overridden lg' = false.
Proof.
  split; [exact host_state_net_channel|].
  exact (proj1 (reset_forgets_overrides "net" net_logger 1 host_state
                  host_state_net_channel)).
Defined.

Lemma host_state_default_new : _loggers host_state !! "default" = None.
Proof. by vm_compute. Qed.

Lemma host_state_default_key : _level_overrides host_state !! "default" = Some 3%Z.
Proof. by vm_compute. Qed.

Lemma default_named_channel_is_pinned_witness :
  registry_wf host_state ∧ _loggers host_state !! "default" = None ∧
  _level_overrides host_state !! "default" = Some 3%Z ∧
  ∃ lg, channel (get_or_create_log_channel "default" host_state).2 "default" = Some lg ∧
        level lg = 3%Z ∧ level_is_overridden lg = true ∧
        channel (set_default_log_level 1
                   (get_or_create_log_channel "default" host_state).2) "default" = Some lg.
Proof.
  split; [apply host_run_wf|]. split; [exact host_state_default_new|].
  split; [exact host_state_default_key|].
  destruct (default_named_channel_is_pinned 3 host_state (host_run_wf _)
              host_state_default_new host_state_default_key)
    as (lg & Hch & Hlevel & Hflag & Hpinned).
  exists lg. exact (conj Hch (conj Hlevel (conj Hflag (proj1 (Hpinned 1%Z))))).
Defined.

(** ** Scenarios *)

(** A fresh channel has the default threshold INFO: [warn] is written to
    both files, [trace] is not. *)
Example scenario_warn_then_trace :
  ∃ lg st1,
    channel (host_run [GetOrCreate "ui"]) "ui" = Some lg ∧
    warn lg "x" PyNone (host_run [GetOrCreate "ui"]) = Ok st1 ∧
    files st1 !! path lg = Some ("[WARN ] x" +:+ nl) ∧
    files st1 !! _COMBINED =
      Some ("[WARN ] ui .....................................: x" +:+ nl) ∧
    trace lg "y" PyNone st1 = Ok st1.
Proof.
  exists ui_logger. eexists. split; [by vm_compute|].
  split; [reflexivity|]. split; [by vm_compute|]. split; by vm_compute.
Qed.

(** An override survives a change of the default, which reaches every
    other channel. *)
Example scenario_net_override :
  level <$> channel (host_run [GetOrCreate "ui"; SetOverride "net" 5; SetDefault 1]) "net"
    = Some 5%Z ∧
  level <$> channel (host_run [GetOrCreate "ui"; SetOverride "net" 5; SetDefault 1]) "ui"
    = Some 1%Z.
Proof. split; by vm_compute. Qed.

(** The list of channel names starts with the entry for the default
    threshold, under the identifier ["default"]. *)
Example scenario_list_names :
  enum_ids (get_loggers_list_as_property_enum "ALL"
              (host_run [GetOrCreate "z"; GetOrCreate "a.b"]))
    = ["default"; "a.b"; "z"].
Proof. by vm_compute. Qed.

(** [ljust] pads by characters: a name of one two-byte character and the
    space after it are followed by 38 dots. *)
Example scenario_two_byte_name :
  ljust (String "195" (String "169" " ")) _JUSTIFICATION "."
    = String "195" (String "169" " ") +:+ fill_str 38 ".".
Proof. reflexivity. Qed.

(** A name with a path separator cannot be overridden either: the call
    raises and the table keeps its single entry. *)
Example scenario_override_unopenable :
  call_set_level_override "a/b" 5 host_boot = Throws (OpenError (logger_path "a/b")) ∧
  _level_overrides (after_op (SetOverride "a/b" 5) host_boot) !! "a/b" = None.
Proof. split; by vm_compute. Qed.
